(** * Pelix remote services: the common dispatcher and its registry servlet

    A shallow embedding of [pelix/remote/dispatcher.py]: the [Dispatcher]
    component (export, update and unexport of service endpoints, listener
    notification) and the [RegistryServlet] (property transform, ingestion
    of wire records, POST handler).

    The dispatcher talks to exporters, listeners and the import registry,
    which live outside the file.  They are modelled as a [World]: a state of
    an arbitrary type [W] together with one handler per method the
    dispatcher calls.  Every function of the source becomes a computation
    that threads the dispatcher's fields and the world, returns normally or
    raises, and records what it did (log records, calls to collaborators and
    their answers, HTTP responses) in a list of events. *)

From stdpp Require Import gmap strings list fin_maps.
From Stdlib Require Import ZArith Ascii String.

Set Warnings "-register-all".

(** ** Python values *)

(** The values that travel through service properties and wire records:
    what [json.loads] can build, with integers for numbers. *)
Inductive json : Type :=
  | JNull
  | JBool (b : bool)
  | JInt (z : Z)
  | JStr (s : string)
  | JArr (l : list json)
  | JObj (m : gmap string json).

(** Python's truth value of a value ([if v:] / [not v]). *)
Definition truthy (v : json) : bool :=
  match v with
  | JNull => false
  | JBool b => b
  | JInt z => negb (Z.eqb z 0)
  | JStr s => negb (String.eqb s "")
  | JArr l => match l with [] => false | _ :: _ => true end
  | JObj m => negb (bool_decide (m = ∅))
  end.

(** [v == '*'] *)
Definition is_star (v : json) : bool :=
  match v with
  | JStr s => String.eqb s "*"
  | _ => false
  end.

(** The exceptions the source raises, catches or lets through. *)
Inductive exn : Type :=
  | KeyError
  | TypeError
  | ValueError
  | AttributeError
  | NameError
  | BundleException
  | OtherException (what : string).

Inductive res (A : Type) : Type :=
  | Ok (a : A)
  | Raise (e : exn).
Arguments Ok {A} a.
Arguments Raise {A} e.

(** [v[key]] for a string key: only a dictionary can be subscripted so. *)
Definition getitem (v : json) (key : string) : res json :=
  match v with
  | JObj m => match m !! key with
              | Some x => Ok x
              | None => Raise KeyError
              end
  | _ => Raise TypeError
  end.

(** ** Constants of [pelix.remote] and [pelix.constants] *)

(** Modelled from the spec: the property names of [pelix.remote] and
    [pelix.constants], which the source imports and does not define.  The
    spec names them ["imported"], ["exported.configs"],
    ["imported.configs"], ["exported.interfaces"], ["framework.uid"] and
    ["endpoint.name"]; the service identifier is filed under Pelix's
    [service.id]. *)
Definition PROP_IMPORTED : string := "imported".
Definition PROP_EXPORTED_CONFIGS : string := "exported.configs".
Definition PROP_IMPORTED_CONFIGS : string := "imported.configs".
Definition PROP_EXPORTED_INTERFACES : string := "exported.interfaces".
Definition PROP_FRAMEWORK_UID : string := "framework.uid".
Definition PROP_ENDPOINT_NAME : string := "endpoint.name".
Definition SERVICE_ID : string := "service.id".

(** ** Data model *)

(** Modelled from the spec: a service reference of the framework.  It is
    hashed and compared by its service identifier; [sr_properties] are the
    properties the service was registered with, as they are now. *)
Record ServiceReference : Type := {
  sr_id : Z;
  sr_properties : gmap string json;
}.

(** Modelled from the spec: [svc_ref.get_properties()].  The framework files
    the service identifier among the properties of every service. *)
Definition get_properties (ref : ServiceReference) : gmap string json :=
  <[SERVICE_ID := JInt (sr_id ref)]> (sr_properties ref).

(** [svc_ref.get_property(name)]: the value, or [None] when absent. *)
Definition get_property (ref : ServiceReference) (name : string) : json :=
  default JNull (get_properties ref !! name).

(** Modelled from the spec: the bean an exporter returns
    ([pelix.remote.beans.ExportEndpoint]), with the attributes the
    dispatcher and the servlet read. *)
Record Endpoint : Type := {
  uid : string;
  name : string;
  configurations : list string;
  specifications : list string;
  properties : gmap string json;
}.

(** Modelled from the spec: [pelix.remote.beans.ImportEndpoint], built from
    the six values of a wire record; [server] is set after construction. *)
Record ImportEndpoint : Type := {
  ie_uid : json;
  ie_framework : json;
  ie_configurations : json;
  ie_name : json;
  ie_specifications : json;
  ie_properties : gmap string json;
  ie_server : string;
}.

(** The result of [_compute_endpoint_name]: the [endpoint.name] property
    itself, or the string ["service_{0}".format(service_id)], kept as the
    formatted value. *)
Inductive endpoint_name : Type :=
  | GivenName (v : json)
  | GeneratedName (service_id : json).

(** Exporters and listeners are objects held in lists; they are told apart
    by an identifier. *)
Definition exporter : Type := nat.
Definition listener : Type := nat.

(** What [exporter.export_service] can answer, after the interface the
    dispatcher expects: an endpoint, [None], or one of the two errors the
    dispatcher catches. *)
Inductive export_result : Type :=
  | Exported (ep : Endpoint)
  | Refused
  | ExportNameError
  | ExportBundleException.

(** What [exporter.update_export] can answer. *)
Inductive update_result : Type :=
  | Updated
  | UpdateNameError.

(** The three calls a listener receives.  [endpoint_removed] is called with
    the previous properties from [__update_service] and without them from
    [__unexport_service]. *)
Inductive notification : Type :=
  | endpoints_added (eps : list Endpoint)
  | endpoint_updated (ep : Endpoint) (old_properties : gmap string json)
  | endpoint_removed (ep : Endpoint) (old_properties : option (gmap string json)).

Inductive level : Type := WARNING | ERROR.

(** What a run does, in order. *)
Inductive event : Type :=
  | Log (lvl : level) (fmt : string)
  | Handles (ex : exporter) (configs : json) (answer : bool)
  | ExportService (ex : exporter) (ref : ServiceReference)
      (nm : endpoint_name) (fw_uid : option string) (answer : export_result)
  | UpdateExport (ex : exporter) (ep : Endpoint) (nm : endpoint_name)
      (old_properties : gmap string json) (answer : update_result)
  | UnexportService (ex : exporter) (ep : Endpoint)
  | Notify (l : listener) (n : notification) (raised : option exn)
  | RegistryAdd (ep : ImportEndpoint)
  | SendContent (status : Z) (content : string) (mime : string).

(** The fields of [Dispatcher].  [_importers], [__kind_endpoints] and
    [__lock] are never written by the methods below and are left out. *)
Record Dispatcher : Type := {
  _exporters : list exporter;
  _listeners : list listener;
  _fw_uid : option string;
  __endpoints : gmap string Endpoint;
  __uid_exporter : gmap string exporter;
  __service_uids : gmap Z (gset string);
  __validated : bool;
}.

Definition set_endpoints (f : gmap string Endpoint → gmap string Endpoint)
    (d : Dispatcher) : Dispatcher :=
  {| _exporters := _exporters d; _listeners := _listeners d;
     _fw_uid := _fw_uid d; __endpoints := f (__endpoints d);
     __uid_exporter := __uid_exporter d;
     __service_uids := __service_uids d; __validated := __validated d |}.

Definition set_uid_exporter (f : gmap string exporter → gmap string exporter)
    (d : Dispatcher) : Dispatcher :=
  {| _exporters := _exporters d; _listeners := _listeners d;
     _fw_uid := _fw_uid d; __endpoints := __endpoints d;
     __uid_exporter := f (__uid_exporter d);
     __service_uids := __service_uids d; __validated := __validated d |}.

Definition set_service_uids
    (f : gmap Z (gset string) → gmap Z (gset string))
    (d : Dispatcher) : Dispatcher :=
  {| _exporters := _exporters d; _listeners := _listeners d;
     _fw_uid := _fw_uid d; __endpoints := __endpoints d;
     __uid_exporter := __uid_exporter d;
     __service_uids := f (__service_uids d); __validated := __validated d |}.

(** ** The collaborators *)

(** One handler per method called on an exporter, a listener or the import
    registry.  Each reads and updates the collaborators' state [W]; a
    listener may raise. *)
Record World (W : Type) : Type := {
  exporter_handles : exporter → json → W → bool * W;
  exporter_export_service :
    exporter → ServiceReference → endpoint_name → option string → W →
    export_result * W;
  exporter_update_export :
    exporter → Endpoint → endpoint_name → gmap string json → W →
    update_result * W;
  exporter_unexport_service : exporter → Endpoint → W → W;
  listener_call : listener → notification → W → option exn * W;
  registry_add : ImportEndpoint → W → W;
}.
Arguments exporter_handles {W}.
Arguments exporter_export_service {W}.
Arguments exporter_update_export {W}.
Arguments exporter_unexport_service {W}.
Arguments listener_call {W}.
Arguments registry_add {W}.

(** ** Computations *)

(** The outcome of a run: its result, the dispatcher and the world it
    leaves, and the events it produced. *)
Record run (W A : Type) : Type := Run {
  result : res A;
  disp : Dispatcher;
  world : W;
  events : list event;
}.
Arguments Run {W A}.
Arguments result {W A}.
Arguments disp {W A}.
Arguments world {W A}.
Arguments events {W A}.

Definition M (W A : Type) : Type := Dispatcher → W → run W A.

Definition ret {W A} (a : A) : M W A := λ d w, Run (Ok a) d w [].

Definition raise {W A} (e : exn) : M W A := λ d w, Run (Raise e) d w [].

(** Sequencing: an exception ends the computation; the state reached and
    the events produced so far stay. *)
Definition bind {W A B} (m : M W A) (f : A → M W B) : M W B :=
  λ d w,
    let r1 := m d w in
    match result r1 with
    | Ok a =>
        let r2 := f a (disp r1) (world r1) in
        Run (result r2) (disp r2) (world r2) (events r1 ++ events r2)
    | Raise e => Run (Raise e) (disp r1) (world r1) (events r1)
    end.

#[global] Instance M_ret {W} : MRet (M W) := @ret W.
#[global] Instance M_bind {W} : MBind (M W) := λ A B f m, bind m f.

(** [try: m except Exception as ex: h ex] *)
Definition try_except {W A} (m : M W A) (h : exn → M W A) : M W A :=
  λ d w,
    let r1 := m d w in
    match result r1 with
    | Ok a => r1
    | Raise e =>
        let r2 := h e (disp r1) (world r1) in
        Run (result r2) (disp r2) (world r2) (events r1 ++ events r2)
    end.

Definition get {W} : M W Dispatcher := λ d w, Run (Ok d) d w [].

Definition modify {W} (f : Dispatcher → Dispatcher) : M W unit :=
  λ d w, Run (Ok tt) (f d) w [].

Definition emit {W} (e : event) : M W unit := λ d w, Run (Ok tt) d w [e].

Definition lift {W A} (r : res A) : M W A :=
  match r with
  | Ok a => ret a
  | Raise e => raise e
  end.

(** [for x in l: body x] *)
Fixpoint for_each {W A} (body : A → M W unit) (l : list A) : M W unit :=
  match l with
  | [] => ret tt
  | x :: l' => body x ;; for_each body l'
  end.

(** [[x for x in l if keep x]] *)
Fixpoint filter_list {W A} (keep : A → M W bool) (l : list A) : M W (list A) :=
  match l with
  | [] => ret []
  | x :: l' =>
      b ← keep x;
      rest ← filter_list keep l';
      ret (if b : bool then x :: rest else rest)
  end.

Section Collaborators.

Context {W : Type} (env : World W).

Definition log (lvl : level) (fmt : string) : M W unit := emit (Log lvl fmt).

Definition call_handles (ex : exporter) (configs : json) : M W bool :=
  λ d w,
    let '(b, w') := exporter_handles env ex configs w in
    Run (Ok b) d w' [Handles ex configs b].

Definition call_export_service (ex : exporter) (ref : ServiceReference)
    (nm : endpoint_name) (fw : option string) : M W export_result :=
  λ d w,
    let '(r, w') := exporter_export_service env ex ref nm fw w in
    Run (Ok r) d w' [ExportService ex ref nm fw r].

Definition call_update_export (ex : exporter) (ep : Endpoint)
    (nm : endpoint_name) (old : gmap string json) : M W update_result :=
  λ d w,
    let '(r, w') := exporter_update_export env ex ep nm old w in
    Run (Ok r) d w' [UpdateExport ex ep nm old r].

Definition call_unexport_service (ex : exporter) (ep : Endpoint) : M W unit :=
  λ d w,
    Run (Ok tt) d (exporter_unexport_service env ex ep w)
      [UnexportService ex ep].

(** A call to a listener: what the listener raises comes out of the call. *)
Definition call_listener (l : listener) (n : notification) : M W unit :=
  λ d w,
    let '(r, w') := listener_call env l n w in
    Run (match r with None => Ok tt | Some e => Raise e end) d w'
      [Notify l n r].

Definition call_registry_add (ep : ImportEndpoint) : M W unit :=
  λ d w, Run (Ok tt) d (registry_add env ep w) [RegistryAdd ep].

(** ** Dispatcher *)

(** [Dispatcher._compute_endpoint_name] *)
Definition _compute_endpoint_name (props : gmap string json)
    : res endpoint_name :=
  let nm := default JNull (props !! PROP_ENDPOINT_NAME) in
  if truthy nm then Ok (GivenName nm)
  else match props !! SERVICE_ID with
       | Some v => Ok (GeneratedName v)
       | None => Raise KeyError
       end.

(** The body of the loop over the exporters in [__export_service]: ask the
    exporter, store the endpoint it returns.  Answers the endpoint to
    append to [endpoints], if any. *)
Definition export_with (ref : ServiceReference) (nm : endpoint_name)
    (ex : exporter) : M W (option Endpoint) :=
  d ← get;
  r ← call_export_service ex ref nm (_fw_uid d);
  match r with
  | Refused => ret None
  | Exported ep =>
      modify (set_endpoints <[uid ep := ep]>) ;;
      modify (set_uid_exporter <[uid ep := ex]>) ;;
      modify (set_service_uids
                (λ m, <[sr_id ref := {[uid ep]} ∪ default ∅ (m !! sr_id ref)]> m)) ;;
      ret (Some ep)
  | ExportNameError | ExportBundleException =>
      log ERROR "Error exporting service: %s" ;;
      ret None
  end.

Fixpoint export_loop (ref : ServiceReference) (nm : endpoint_name)
    (exporters : list exporter) : M W (list Endpoint) :=
  match exporters with
  | [] => ret []
  | ex :: rest =>
      o ← export_with ref nm ex;
      eps ← export_loop ref nm rest;
      ret (match o with Some ep => ep :: eps | None => eps end)
  end.

(** [Dispatcher.__export_service] *)
Definition __export_service (ref : ServiceReference) : M W unit :=
  modify (set_service_uids
            (λ m, match m !! sr_id ref with
                  | Some _ => m
                  | None => <[sr_id ref := ∅]> m
                  end)) ;;
  d ← get;
  match _exporters d with
  | [] => log WARNING "No exporters yet."
  | _ :: _ =>
      let configs := get_property ref PROP_EXPORTED_CONFIGS in
      exporters ←
        (if negb (truthy configs) || is_star configs
         then ret (_exporters d)
         else filter_list (λ ex, call_handles ex configs) (_exporters d));
      match exporters with
      | [] => log WARNING "No exporter for %s"
      | _ :: _ =>
          nm ← lift (_compute_endpoint_name (get_properties ref));
          endpoints ← export_loop ref nm exporters;
          match endpoints with
          | [] => log WARNING "No endpoint created for %s"
          | _ :: _ =>
              d' ← get;
              match _listeners d' with
              | [] => ret tt
              | ls => for_each (λ l, call_listener l (endpoints_added endpoints)) ls
              end
          end
      end
  end.

(** The body of the loop over the UIDs in [__update_service]. *)
Definition update_uid (ref : ServiceReference)
    (old_properties : gmap string json) (u : string) : M W unit :=
  d ← get;
  match __uid_exporter d !! u, __endpoints d !! u with
  | Some ex, Some ep =>
      new_name ← lift (_compute_endpoint_name (get_properties ref));
      r ← call_update_export ex ep new_name old_properties;
      match r with
      | UpdateNameError =>
          log ERROR "Error updating service properties: %s" ;;
          call_unexport_service ex ep ;;
          match _listeners d with
          | [] => ret tt
          | ls => for_each
                    (λ l, call_listener l
                            (endpoint_removed ep (Some old_properties))) ls
          end
      | Updated =>
          match _listeners d with
          | [] => ret tt
          | ls => for_each
                    (λ l, call_listener l
                            (endpoint_updated ep old_properties)) ls
          end
      end
  | _, _ =>
      log WARNING "No exporter for endpoint %s" ;;
      (* self.__service_uids[svc_ref].retain(uid): the record is a built-in
         set, which has no attribute of that name *)
      match __service_uids d !! sr_id ref with
      | None => raise KeyError
      | Some _ => raise AttributeError
      end
  end.

(** [Dispatcher.__update_service] *)
Definition __update_service (ref : ServiceReference)
    (old_properties : gmap string json) : M W unit :=
  d ← get;
  match __service_uids d !! sr_id ref with
  | None => ret tt
  | Some uids => for_each (update_uid ref old_properties) (elements uids)
  end.

(** The body of the loop over the UIDs in [__unexport_service]. *)
Definition unexport_uid (u : string) : M W unit :=
  d ← get;
  match __endpoints d !! u with
  | None => log WARNING "Trying to remove a lost endpoint (%s)"
  | Some ep =>
      modify (set_endpoints (delete u)) ;;
      match __uid_exporter d !! u with
      | None => log WARNING "Trying to remove a lost endpoint (%s)"
      | Some ex =>
          modify (set_uid_exporter (delete u)) ;;
          call_unexport_service ex ep ;;
          match _listeners d with
          | [] => ret tt
          | ls =>
              for_each
                (λ l, try_except (call_listener l (endpoint_removed ep None))
                        (λ _, log ERROR "Error notifying listener: %s")) ls
          end
      end
  end.

(** [Dispatcher.__unexport_service] *)
Definition __unexport_service (ref : ServiceReference) : M W unit :=
  d ← get;
  match __service_uids d !! sr_id ref with
  | None => ret tt
  | Some uids =>
      modify (set_service_uids (delete (sr_id ref))) ;;
      for_each unexport_uid (elements uids)
  end.

(** [list(self.__endpoints.values())], in the order of the map (Python
    keeps the order of insertion). *)
Definition endpoint_values (d : Dispatcher) : list Endpoint :=
  (map_to_list (__endpoints d)).*2.

(** [Dispatcher._bind_listener] *)
Definition _bind_listener (l : listener) : M W unit :=
  d ← get;
  if bool_decide (__endpoints d = ∅) then ret tt
  else try_except (call_listener l (endpoints_added (endpoint_values d)))
         (λ _, log ERROR "Error notifying newly bound listener: %s").

(** The kinds of [pelix.framework.ServiceEvent]. *)
Inductive event_kind : Type :=
  | REGISTERED
  | MODIFIED
  | MODIFIED_ENDMATCH
  | UNREGISTERING.

Record ServiceEvent : Type := {
  get_kind : event_kind;
  get_service_reference : ServiceReference;
  get_previous_properties : gmap string json;
}.

(** [Dispatcher.service_changed] *)
Definition service_changed (ev : ServiceEvent) : M W unit :=
  let kind := get_kind ev in
  let svc_ref := get_service_reference ev in
  d ← get;
  match kind with
  | REGISTERED => __export_service svc_ref
  | MODIFIED =>
      match __service_uids d !! sr_id svc_ref with
      | None => __export_service svc_ref
      | Some _ => __update_service svc_ref (get_previous_properties ev)
      end
  | MODIFIED_ENDMATCH | UNREGISTERING =>
      match __service_uids d !! sr_id svc_ref with
      | Some _ => __unexport_service svc_ref
      | None => ret tt
      end
  end.

End Collaborators.

(** ** [json.loads] *)

(** The decoder of Python's [json] module, for ASCII texts whose numbers
    are integers and whose strings have no [\u] escape.  A text that leaves
    this fragment is [Unmodelled]: the model does not say what Python does
    with it. *)
Inductive parsed (A : Type) : Type :=
  | Parsed (a : A) (rest : string)
  | Malformed
  | Unmodelled.
Arguments Parsed {A} a rest.
Arguments Malformed {A}.
Arguments Unmodelled {A}.

Definition parsed_map {A B} (f : A → B) (p : parsed A) : parsed B :=
  match p with
  | Parsed a rest => Parsed (f a) rest
  | Malformed => Malformed
  | Unmodelled => Unmodelled
  end.

Definition is_ws (c : ascii) : bool :=
  let n := nat_of_ascii c in
  Nat.eqb n 32 || Nat.eqb n 9 || Nat.eqb n 10 || Nat.eqb n 13.

Fixpoint skip_ws (s : string) : string :=
  match s with
  | String c s' => if is_ws c then skip_ws s' else s
  | EmptyString => s
  end.

Definition is_digit (c : ascii) : bool :=
  let n := nat_of_ascii c in Nat.leb 48 n && Nat.leb n 57.

Definition digit_value (c : ascii) : Z := Z.of_nat (nat_of_ascii c) - 48.

(** The character a two-character escape stands for; [Some None] is [\u]. *)
Definition unescape (c : ascii) : option (option ascii) :=
  let n := nat_of_ascii c in
  if Nat.eqb n 34 then Some (Some c)                       (* quote *)
  else if Nat.eqb n 92 then Some (Some c)                  (* backslash *)
  else if Nat.eqb n 47 then Some (Some c)                  (* slash *)
  else if Nat.eqb n 98 then Some (Some (ascii_of_nat 8))   (* b *)
  else if Nat.eqb n 102 then Some (Some (ascii_of_nat 12)) (* f *)
  else if Nat.eqb n 110 then Some (Some (ascii_of_nat 10)) (* n *)
  else if Nat.eqb n 114 then Some (Some (ascii_of_nat 13)) (* r *)
  else if Nat.eqb n 116 then Some (Some (ascii_of_nat 9))  (* t *)
  else if Nat.eqb n 117 then Some None                     (* u *)
  else None.

(** A string literal, from the character after its opening quote. *)
Fixpoint scan_string (s : string) : parsed string :=
  match s with
  | EmptyString => Malformed
  | String c s' =>
      let n := nat_of_ascii c in
      if Nat.eqb n 34 then Parsed EmptyString s'
      else if Nat.eqb n 92 then
        match s' with
        | EmptyString => Malformed
        | String e s'' =>
            match unescape e with
            | Some (Some c') => parsed_map (String c') (scan_string s'')
            | Some None => Unmodelled
            | None => Malformed
            end
        end
      else if Nat.ltb n 32 then Malformed
      else if Nat.leb 128 n then Unmodelled
      else parsed_map (String c) (scan_string s')
  end.

Fixpoint scan_digits (acc : Z) (s : string) : Z * string :=
  match s with
  | String c s' =>
      if is_digit c then scan_digits (10 * acc + digit_value c) s' else (acc, s)
  | EmptyString => (acc, s)
  end.

(** Does a fraction ([.] and a digit) or an exponent ([e], an optional sign
    and a digit) follow?  Then the number is a float. *)
Definition float_follows (s : string) : bool :=
  match s with
  | String c (String c1 s1) =>
      let n := nat_of_ascii c in
      if Nat.eqb n 46 then is_digit c1
      else if Nat.eqb n 101 || Nat.eqb n 69 then
        is_digit c1
        || ((Nat.eqb (nat_of_ascii c1) 43 || Nat.eqb (nat_of_ascii c1) 45)
            && match s1 with String c2 _ => is_digit c2 | EmptyString => false end)
      else false
  | _ => false
  end.

(** The digits of a number, after its sign: [0] or [[1-9][0-9]*]. *)
Definition scan_natural (s : string) : parsed Z :=
  match s with
  | String c s' =>
      if Nat.eqb (nat_of_ascii c) 48 then
        if float_follows s' then Unmodelled else Parsed 0%Z s'
      else if is_digit c then
        let '(n, rest) := scan_digits (digit_value c) s' in
        if float_follows rest then Unmodelled else Parsed n rest
      else Malformed
  | EmptyString => Malformed
  end.

Fixpoint string_prefix (p s : string) : option string :=
  match p with
  | EmptyString => Some s
  | String c p' =>
      match s with
      | String c' s' => if Ascii.eqb c c' then string_prefix p' s' else None
      | EmptyString => None
      end
  end.

Definition scan_literal {A} (lit : string) (v : parsed A → parsed A)
    (a : A) (s : string) : parsed A :=
  match string_prefix lit s with
  | Some rest => v (Parsed a rest)
  | None => Malformed
  end.

(** [dict(pairs)]: the last pair of a key stays. *)
Definition dict_of_pairs (pairs : list (string * json)) : gmap string json :=
  list_to_map (reverse pairs).

(** One value, the elements of an array after [[], the members of an object
    after [{] and an opening quote.  [fuel] bounds the nesting. *)
Fixpoint scan_value (fuel : nat) (s : string) : parsed json :=
  match fuel with
  | O => Unmodelled
  | S fuel' =>
      match s with
      | EmptyString => Malformed
      | String c r =>
          let n := nat_of_ascii c in
          if Nat.eqb n 34 then parsed_map JStr (scan_string r)
          else if Nat.eqb n 123 then
            match skip_ws r with
            | String c1 r1 =>
                if Nat.eqb (nat_of_ascii c1) 125 then Parsed (JObj ∅) r1
                else if Nat.eqb (nat_of_ascii c1) 34 then
                  parsed_map (λ ps, JObj (dict_of_pairs ps)) (scan_members fuel' r1)
                else Malformed
            | EmptyString => Malformed
            end
          else if Nat.eqb n 91 then
            match skip_ws r with
            | String c1 r1 =>
                if Nat.eqb (nat_of_ascii c1) 93 then Parsed (JArr []) r1
                else parsed_map JArr (scan_elements fuel' (String c1 r1))
            | EmptyString => Malformed
            end
          else if Nat.eqb n 110 then scan_literal "null" id JNull s
          else if Nat.eqb n 116 then scan_literal "true" id (JBool true) s
          else if Nat.eqb n 102 then scan_literal "false" id (JBool false) s
          else if Nat.eqb n 45 then
            match scan_natural r with
            | Parsed z rest => Parsed (JInt (- z)) rest
            | Malformed => scan_literal "-Infinity" (λ _, Unmodelled) JNull s
            | Unmodelled => Unmodelled
            end
          else if is_digit c then parsed_map JInt (scan_natural s)
          else if Nat.eqb n 78 then scan_literal "NaN" (λ _, Unmodelled) JNull s
          else if Nat.eqb n 73 then scan_literal "Infinity" (λ _, Unmodelled) JNull s
          else Malformed
      end
  end
with scan_elements (fuel : nat) (s : string) : parsed (list json) :=
  match fuel with
  | O => Unmodelled
  | S fuel' =>
      match scan_value fuel' s with
      | Parsed v r =>
          match skip_ws r with
          | String c1 r1 =>
              if Nat.eqb (nat_of_ascii c1) 93 then Parsed [v] r1
              else if Nat.eqb (nat_of_ascii c1) 44 then
                parsed_map (cons v) (scan_elements fuel' (skip_ws r1))
              else Malformed
          | EmptyString => Malformed
          end
      | Malformed => Malformed
      | Unmodelled => Unmodelled
      end
  end
with scan_members (fuel : nat) (s : string) : parsed (list (string * json)) :=
  match fuel with
  | O => Unmodelled
  | S fuel' =>
      match scan_string s with
      | Parsed key r =>
          match skip_ws r with
          | String c1 r1 =>
              if Nat.eqb (nat_of_ascii c1) 58 then
                match scan_value fuel' (skip_ws r1) with
                | Parsed v r2 =>
                    match skip_ws r2 with
                    | String c3 r3 =>
                        if Nat.eqb (nat_of_ascii c3) 125 then Parsed [(key, v)] r3
                        else if Nat.eqb (nat_of_ascii c3) 44 then
                          match skip_ws r3 with
                          | String c4 r4 =>
                              if Nat.eqb (nat_of_ascii c4) 34 then
                                parsed_map (cons (key, v)) (scan_members fuel' r4)
                              else Malformed
                          | EmptyString => Malformed
                          end
                        else Malformed
                    | EmptyString => Malformed
                    end
                | Malformed => Malformed
                | Unmodelled => Unmodelled
                end
              else Malformed
          | EmptyString => Malformed
          end
      | Malformed => Malformed
      | Unmodelled => Unmodelled
      end
  end.

(** [json.loads(s)]: the value, [ValueError] for a text that is not JSON
    (the empty text among them), or nothing for a text outside the
    fragment. *)
Definition json_loads (s : string) : option (res json) :=
  match scan_value (2 * String.length s + 2) (skip_ws s) with
  | Parsed v rest =>
      match skip_ws rest with
      | EmptyString => Some (Ok v)
      | String _ _ => Some (Raise ValueError)
      end
  | Malformed => Some (Raise ValueError)
  | Unmodelled => None
  end.

(** ** Registry servlet *)

(** Modelled from the spec: the request handed to the servlet by the HTTP
    service.  [read_data] is the body as text ([to_str] of the bytes read),
    the empty text when the request has no body. *)
Record Request : Type := {
  get_path : string;
  read_data : string;
  get_client_address : string * Z;
}.

(** [s.split(sep)] *)
Fixpoint split (sep : ascii) (s : string) : list string :=
  match s with
  | EmptyString => [EmptyString]
  | String c s' =>
      if Ascii.eqb c sep then EmptyString :: split sep s'
      else match split sep s' with
           | [] => [String c EmptyString]
           | part :: parts => String c part :: parts
           end
  end.

(** [for x in v]: the elements of a list, the keys of a dictionary, the
    characters of a string; other values are not iterable.  The keys come
    in the order of the map, not in the order of insertion. *)
Definition iterate (v : json) : res (list json) :=
  match v with
  | JArr l => Ok l
  | JObj m => Ok (JStr <$> (map_to_list m).*1)
  | JStr s => Ok ((λ c, JStr (String c EmptyString)) <$> list_ascii_of_string s)
  | JNull | JBool _ | JInt _ => Raise TypeError
  end.

(** What the servlet writes as ["sender"]: its [_fw_uid], [None] before
    validation. *)
Definition sender_of (fw_uid : option string) : json :=
  match fw_uid with Some s => JStr s | None => JNull end.

(** [RegistryServlet._make_endpoint_dict], with the servlet's [_fw_uid]. *)
Definition _make_endpoint_dict (fw_uid : option string) (endpoint : Endpoint)
    : json :=
  JObj (<["sender" := sender_of fw_uid]>
       (<["uid" := JStr (uid endpoint)]>
       (<["configurations" := JArr (JStr <$> configurations endpoint)]>
       (<["name" := JStr (name endpoint)]>
       (<["specifications" := JArr (JStr <$> specifications endpoint)]>
       (<["properties" := JObj (properties endpoint)]> ∅)))))).

(** [RegistryServlet.filter_properties] on a dictionary. *)
Definition filter_properties (framework_uid : json)
    (props : gmap string json) : gmap string json :=
  let p1 := <[PROP_IMPORTED := JBool true]> props in
  let p2 := match p1 !! PROP_EXPORTED_CONFIGS with
            | Some v => <[PROP_IMPORTED_CONFIGS := v]> p1
            | None => p1
            end in
  let p3 := foldl (λ p key, match p !! key with
                            | Some _ => delete key p
                            | None => p
                            end)
              p2 [PROP_EXPORTED_CONFIGS; PROP_EXPORTED_INTERFACES] in
  <[PROP_FRAMEWORK_UID := framework_uid]> p3.

(** [filter_properties] on any value: the first statement assigns an item,
    which only a dictionary accepts under a string key. *)
Definition filter_properties_of (framework_uid : json) (props : json)
    : res (gmap string json) :=
  match props with
  | JObj m => Ok (filter_properties framework_uid m)
  | _ => Raise TypeError
  end.

Section Servlet.

Context {W : Type} (env : World W).

Definition send_content (status : Z) (content mime : string) : M W unit :=
  emit (SendContent status content mime).

(** [RegistryServlet.register_endpoint] *)
Definition register_endpoint (host_address : string) (endpoint_dict : json)
    : M W unit :=
  framework ← lift (getitem endpoint_dict "sender");
  raw ← lift (getitem endpoint_dict "properties");
  props ← lift (filter_properties_of framework raw);
  u ← lift (getitem endpoint_dict "uid");
  confs ← lift (getitem endpoint_dict "configurations");
  nm ← lift (getitem endpoint_dict "name");
  specs ← lift (getitem endpoint_dict "specifications");
  call_registry_add env
    {| ie_uid := u; ie_framework := framework; ie_configurations := confs;
       ie_name := nm; ie_specifications := specs; ie_properties := props;
       ie_server := host_address |}.

(** [RegistryServlet.do_POST].  Nothing is answered for a body outside the
    fragment [json_loads] covers. *)
Definition do_POST (request : Request) : option (M W unit) :=
  let path_parts := split "/" (get_path request) in
  if negb (String.eqb (List.last path_parts EmptyString) "endpoints") then
    Some (send_content 404 "Unhandled path" "text/plain")
  else
    match json_loads (read_data request) with
    | None => None
    | Some loaded =>
        Some (endpoints ← lift loaded;
              (if truthy endpoints then
                 let sender := (get_client_address request).1 in
                 items ← lift (iterate endpoints);
                 for_each (register_endpoint sender) items
               else ret tt) ;;
              send_content 200 "OK" "text/plain")
    end.

End Servlet.

(** ** Reading the events of a run *)

(** The calls the listeners received, in order. *)
Definition notifications (tr : list event) : list (listener * notification) :=
  omap (λ e, match e with Notify l n _ => Some (l, n) | _ => None end) tr.

(** The listeners that raised. *)
Definition failures (tr : list event) : list (listener * exn) :=
  omap (λ e, match e with Notify l _ (Some x) => Some (l, x) | _ => None end) tr.

(** The exporters asked to export, with their answers. *)
Definition export_answers (tr : list event) : list (exporter * export_result) :=
  omap (λ e, match e with
             | ExportService ex _ _ _ a => Some (ex, a)
             | _ => None
             end) tr.

Definition asked (tr : list event) : list exporter := (export_answers tr).*1.

Definition exported_endpoint (a : export_result) : option Endpoint :=
  match a with
  | Exported ep => Some ep
  | _ => None
  end.

(** The endpoints the exporters returned. *)
Definition created (tr : list event) : list Endpoint :=
  omap exported_endpoint (export_answers tr).*2.

(** The exporters whose [handles] was called, with the argument. *)
Definition queried (tr : list event) : list (exporter * json) :=
  omap (λ e, match e with Handles ex c _ => Some (ex, c) | _ => None end) tr.

(** The exporters whose [handles] answered true. *)
Definition accepted (tr : list event) : list exporter :=
  omap (λ e, match e with Handles ex _ true => Some ex | _ => None end) tr.

(** The endpoint a listener call is about, by UID. *)
Definition about (u : string) (n : notification) : bool :=
  match n with
  | endpoints_added _ => false
  | endpoint_updated ep _ | endpoint_removed ep _ => String.eqb (uid ep) u
  end.

Definition event_about (u : string) (e : event) : bool :=
  match e with
  | UpdateExport _ ep _ _ _ | UnexportService _ ep => String.eqb (uid ep) u
  | Notify _ n _ => about u n
  | _ => false
  end.

Definition events_about (u : string) (tr : list event) : list event :=
  List.filter (event_about u) tr.

(** The listener calls about the endpoint of UID [u]. *)
Definition notifications_about (u : string) (tr : list event)
    : list (listener * notification) :=
  notifications (events_about u tr).

(** The [unexport_service] calls for the endpoint of UID [u]. *)
Definition unexports_about (u : string) (tr : list event)
    : list (exporter * Endpoint) :=
  omap (λ e, match e with UnexportService ex ep => Some (ex, ep) | _ => None end)
    (events_about u tr).

(** The endpoints the imported registry received. *)
Definition registered (tr : list event) : list ImportEndpoint :=
  omap (λ e, match e with RegistryAdd ep => Some ep | _ => None end) tr.

(** The HTTP answers sent. *)
Definition responses (tr : list event) : list (Z * string * string) :=
  omap (λ e, match e with SendContent st c m => Some (st, c, m) | _ => None end) tr.

(** One call to every listener, in the order of the list. *)
Definition broadcast (ls : list listener) (n : notification)
    : list (listener * notification) :=
  (λ l, (l, n)) <$> ls.

(** Endpoints are filed under their own UID, as [__export_service] and
    [_bind_exporter] file them. *)
Definition endpoints_keyed (d : Dispatcher) : Prop :=
  ∀ u ep, __endpoints d !! u = Some ep → uid ep = u.

(** ** Sample collaborators *)

(** Collaborators without memory: each answer depends on the call alone. *)
Definition stateless
    (handles : exporter → json → bool)
    (export : exporter → ServiceReference → export_result)
    (update : exporter → Endpoint → update_result)
    (raises : listener → notification → option exn) : World unit :=
  {| exporter_handles := λ ex c w, (handles ex c, w);
     exporter_export_service := λ ex ref _ _ w, (export ex ref, w);
     exporter_update_export := λ ex ep _ _ w, (update ex ep, w);
     exporter_unexport_service := λ _ _ w, w;
     listener_call := λ l n w, (raises l n, w);
     registry_add := λ _ w, w |}.

(** The endpoint exporter [ex] makes for a service: UID ["ep-<ex>"] when
    [ex] is 0 or 1. *)
Definition sample_endpoint (ex : exporter) : Endpoint :=
  {| uid := match ex with O => "ep-0" | _ => "ep-1" end;
     name := "svc";
     configurations := [match ex with O => "xmlrpc" | _ => "jsonrpc" end];
     specifications := ["sample.Service"];
     properties := <[PROP_EXPORTED_CONFIGS := JStr "xmlrpc"]>
                   (<[PROP_EXPORTED_INTERFACES := JStr "*"]> ∅) |}.

(** Exporter 0 handles ["xmlrpc"], exporter 1 everything else; both export
    whatever they are asked, and update without error; no listener
    raises. *)
Definition friendly : World unit :=
  stateless
    (λ ex c, match ex, c with
             | O, JStr s => String.eqb s "xmlrpc"
             | O, _ => false
             | _, JStr s => negb (String.eqb s "xmlrpc")
             | _, _ => true
             end)
    (λ ex _, Exported (sample_endpoint ex))
    (λ _ _, Updated)
    (λ _ _, None).

(** As [friendly], but no exporter handles anything. *)
Definition unwilling : World unit :=
  stateless (λ _ _, false) (λ ex _, Exported (sample_endpoint ex))
    (λ _ _, Updated) (λ _ _, None).

(** As [friendly], but every update fails with a naming error. *)
Definition renaming : World unit :=
  stateless (λ _ _, true) (λ ex _, Exported (sample_endpoint ex))
    (λ _ _, UpdateNameError) (λ _ _, None).

(** As [friendly], but listener 0 raises on every call. *)
Definition grumpy : World unit :=
  stateless (λ _ _, true) (λ ex _, Exported (sample_endpoint ex))
    (λ _ _, Updated)
    (λ l _, match l with O => Some (OtherException "listener") | _ => None end).

(** As [grumpy], with updates that fail. *)
Definition grumpy_renaming : World unit :=
  stateless (λ _ _, true) (λ ex _, Exported (sample_endpoint ex))
    (λ _ _, UpdateNameError)
    (λ l _, match l with O => Some (OtherException "listener") | _ => None end).

(** A dispatcher after start-up, with its exporters and listeners bound. *)
Definition fresh (exporters : list exporter) (listeners : list listener)
    : Dispatcher :=
  {| _exporters := exporters; _listeners := listeners;
     _fw_uid := Some "fw-1"; __endpoints := ∅; __uid_exporter := ∅;
     __service_uids := ∅; __validated := true |}.

Definition sample_service (id : Z) (props : gmap string json)
    : ServiceReference :=
  {| sr_id := id; sr_properties := props |}.

(** The dispatcher a run leaves. *)
Definition after {W A} (m : M W A) (d : Dispatcher) (w : W) : Dispatcher :=
  disp (m d w).

(** The log records of a run. *)
Definition logged (tr : list event) : list (level * string) :=
  omap (λ e, match e with Log lvl fmt => Some (lvl, fmt) | _ => None end) tr.

(** Two services without properties of their own, one that asks for the
    ["xmlrpc"] configuration, and one whose [exported.configs] is the empty
    string. *)
Definition service_a : ServiceReference := sample_service 1 ∅.
Definition service_b : ServiceReference := sample_service 2 ∅.
Definition xmlrpc_service : ServiceReference :=
  sample_service 7 (<[PROP_EXPORTED_CONFIGS := JStr "xmlrpc"]> ∅).
Definition blank_service : ServiceReference :=
  sample_service 7 (<[PROP_EXPORTED_CONFIGS := JStr ""]> ∅).

(** A dispatcher with one exporter and two listeners that has exported
    [service_a]. *)
Definition exported_a : Dispatcher :=
  after (__export_service friendly service_a) (fresh [0] [0; 1]) tt.

(** A dispatcher whose record of [service_b] lists an endpoint that is
    gone: exporter 0 gave both services the UID ["ep-0"], and [service_a]
    has been unexported since. *)
Definition stale : Dispatcher :=
  after (__unexport_service friendly service_a)
    (after (__export_service friendly service_b)
       (after (__export_service friendly service_a) (fresh [0] [0]) tt) tt) tt.

(** A POST to the servlet's [endpoints] path. *)
Definition post_request (body : string) : Request :=
  {| get_path := "/pelix-dispatcher/endpoints";
     read_data := body;
     get_client_address := ("10.0.0.7", 8080%Z) |}.

(** [s] between double quotes. *)
Definition quoted (s : string) : string :=
  String (ascii_of_nat 34) (s +:+ String (ascii_of_nat 34) EmptyString).

(** The body a peer posts for [sample_endpoint 0]: a list of one wire
    record. *)
Definition sample_body : string :=
  "[{" +:+ quoted "sender" +:+ ": " +:+ quoted "fw-1" +:+ ", "
  +:+ quoted "uid" +:+ ": " +:+ quoted "ep-0" +:+ ", "
  +:+ quoted "configurations" +:+ ": [" +:+ quoted "xmlrpc" +:+ "], "
  +:+ quoted "name" +:+ ": " +:+ quoted "svc" +:+ ", "
  +:+ quoted "specifications" +:+ ": [" +:+ quoted "sample.Service" +:+ "], "
  +:+ quoted "properties" +:+ ": {"
  +:+ quoted "exported.configs" +:+ ": " +:+ quoted "xmlrpc" +:+ ", "
  +:+ quoted "exported.interfaces" +:+ ": " +:+ quoted "*" +:+ "}}]".

(** ** Shapes of events and of the dispatcher *)

Definition is_notify (n : notification) (e : event) : Prop :=
  ∃ l x, e = Notify l n x.

Definition is_notify_or_log (n : notification) (e : event) : Prop :=
  (∃ l x, e = Notify l n x) ∨ (∃ lvl s, e = Log lvl s).

Definition is_handles (e : event) : Prop := ∃ ex c b, e = Handles ex c b.

Definition is_export_or_log (e : event) : Prop :=
  (∃ ex ref nm fw a, e = ExportService ex ref nm fw a) ∨ (∃ lvl s, e = Log lvl s).

(** What [export_with] leaves of the dispatcher when the exporter returns
    an endpoint. *)
Definition stored (ref : ServiceReference) (ex : exporter) (ep : Endpoint)
    (d : Dispatcher) : Dispatcher :=
  set_service_uids
    (λ m, <[sr_id ref := {[uid ep]} ∪ default ∅ (m !! sr_id ref)]> m)
    (set_uid_exporter <[uid ep := ex]> (set_endpoints <[uid ep := ep]> d)).

(** [self.__service_uids.setdefault(svc_ref, set())] *)
Definition recorded (ref : ServiceReference) (d : Dispatcher) : Dispatcher :=
  set_service_uids
    (λ m, match m !! sr_id ref with
          | Some _ => m
          | None => <[sr_id ref := ∅]> m
          end) d.

(** The listener call that follows an answer of [update_export]. *)
Definition update_notification (old : gmap string json) (ep : Endpoint)
    (a : update_result) : notification :=
  match a with
  | UpdateNameError => endpoint_removed ep (Some old)
  | Updated => endpoint_updated ep old
  end.

(** ** The rest of the dispatcher *)

(** [Dispatcher.__init__] *)
Definition Dispatcher_init : Dispatcher :=
  {| _exporters := []; _listeners := []; _fw_uid := None;
     __endpoints := ∅; __uid_exporter := ∅; __service_uids := ∅;
     __validated := false |}.

Definition set_fw_uid (fw : option string) (d : Dispatcher) : Dispatcher :=
  {| _exporters := _exporters d; _listeners := _listeners d;
     _fw_uid := fw; __endpoints := __endpoints d;
     __uid_exporter := __uid_exporter d;
     __service_uids := __service_uids d; __validated := __validated d |}.

Definition set_validated (b : bool) (d : Dispatcher) : Dispatcher :=
  {| _exporters := _exporters d; _listeners := _listeners d;
     _fw_uid := _fw_uid d; __endpoints := __endpoints d;
     __uid_exporter := __uid_exporter d;
     __service_uids := __service_uids d; __validated := b |}.

(** [Dispatcher.get_endpoint] *)
Definition get_endpoint (u : string) (d : Dispatcher) : option Endpoint :=
  __endpoints d !! u.

(** The truth value of an optional text argument: [None] and the empty
    string are false. *)
Definition given (arg : option string) : option string :=
  match arg with
  | Some s => if String.eqb s EmptyString then None else Some s
  | None => None
  end.

(** [Dispatcher.get_endpoints] *)
Definition get_endpoints (kind nm : option string) (d : Dispatcher)
    : list Endpoint :=
  let endpoints := endpoint_values d in
  let endpoints :=
    match given nm with
    | Some n => List.filter (λ endpoint, String.eqb (name endpoint) n) endpoints
    | None => endpoints
    end in
  match given kind with
  | Some k =>
      List.filter (λ endpoint, bool_decide (k ∈ configurations endpoint)) endpoints
  | None => endpoints
  end.

(** Modelled from the spec: the bundle context the framework hands to
    [validate]: the framework UID it answers for
    [get_property(FRAMEWORK_UID)], and the two calls [validate] makes on
    it, which act on the collaborators' state. *)
Record BundleContext (W : Type) : Type := {
  framework_uid : option string;
  get_all_service_references :
    string → W → option (list ServiceReference) * W;
  add_service_listener : string → W → W;
}.
Arguments framework_uid {W}.
Arguments get_all_service_references {W}.
Arguments add_service_listener {W}.

(** A call that acts on the collaborators and answers nothing. *)
Definition effect {W} (f : W → W) : M W unit :=
  λ d w, Run (Ok tt) d (f w) [].

(** A call that acts on the collaborators and answers. *)
Definition query {W A} (f : W → A * W) : M W A :=
  λ d w, Run (Ok (f w).1) d (f w).2 [].

(** The LDAP filter of [validate]: the services that have an
    [exported.configs] or an [exported.interfaces] property. *)
Definition ldapfilter : string :=
  "(|(" +:+ PROP_EXPORTED_CONFIGS +:+ "=*)(" +:+ PROP_EXPORTED_INTERFACES +:+ "=*))".

Section Lifecycle.

Context {W : Type} (env : World W).

(** [Dispatcher.validate] *)
Definition validate (context : BundleContext W) : M W unit :=
  modify (set_fw_uid (framework_uid context)) ;;
  modify (set_validated true) ;;
  existing_ref ← query (get_all_service_references context ldapfilter);
  match existing_ref with
  | Some refs => for_each (__export_service env) refs
  | None => ret tt
  end ;;
  effect (add_service_listener context ldapfilter).

End Lifecycle.

(** The [unexport_service] calls of a run. *)
Definition unexports (tr : list event) : list (exporter * Endpoint) :=
  omap (λ e, match e with UnexportService ex ep => Some (ex, ep) | _ => None end) tr.

(** The exporters that returned an endpoint, with the endpoint. *)
Definition created_by (tr : list event) : list (exporter * Endpoint) :=
  omap (λ p, match p.2 with Exported ep => Some (p.1, ep) | _ => None end)
    (export_answers tr).

(** The three maps of the index agree: endpoints are filed under their own
    UID, an endpoint has an exporter and an exporter an endpoint, every UID
    of a record has its endpoint, every endpoint is on a record, and no UID
    is on the records of two services. *)
Record index_consistent (d : Dispatcher) : Prop := {
  consistent_keyed : endpoints_keyed d;
  consistent_exporters : dom (__endpoints d) = dom (__uid_exporter d);
  consistent_records :
    ∀ id uids u, __service_uids d !! id = Some uids → u ∈ uids →
                 is_Some (__endpoints d !! u);
  consistent_owned :
    ∀ u, is_Some (__endpoints d !! u) →
         ∃ id uids, __service_uids d !! id = Some uids ∧ u ∈ uids;
  consistent_disjoint :
    ∀ id1 id2 uids1 uids2 u,
      __service_uids d !! id1 = Some uids1 → __service_uids d !! id2 = Some uids2 →
      u ∈ uids1 → u ∈ uids2 → id1 = id2;
}.

(** What an export pass that created [made] adds to the index. *)
Definition filed (ref : ServiceReference) (made : list (exporter * Endpoint))
    (d : Dispatcher) : Dispatcher :=
  foldl (λ d' p, stored ref p.1 p.2 d') d made.

(** The endpoint and the exporter [__unexport_service] pops for a UID,
    when both are there. *)
Definition popped (d : Dispatcher) (u : string) : option (exporter * Endpoint) :=
  match __endpoints d !! u, __uid_exporter d !! u with
  | Some ep, Some ex => Some (ex, ep)
  | _, _ => None
  end.

(** The [endpoint_removed] calls for a popped endpoint: one for every
    listener. *)
Definition removals (ls : list listener) (p : exporter * Endpoint)
    : list (listener * notification) :=
  broadcast ls (endpoint_removed p.2 None).

(** ** The rest of the servlet *)

(** The members of a [RegistryServlet] that its methods assign.  The
    framework UID is [_fw_uid] in the source; ports are integers. *)
Record RegistryServlet : Type := {
  servlet_fw_uid : option string;
  _controller : bool;
  _path : option string;
  _ports : list Z;
}.

(** [RegistryServlet.__init__] *)
Definition RegistryServlet_init : RegistryServlet :=
  {| servlet_fw_uid := None; _controller := false; _path := None; _ports := [] |}.

(** [RegistryServlet.bound_to] *)
Definition bound_to (path : string) (parameters : gmap string Z)
    (s : RegistryServlet) : res RegistryServlet :=
  match parameters !! "http.port" with
  | None => Raise KeyError
  | Some port =>
      if bool_decide (port ∈ _ports s) then Ok s
      else Ok {| servlet_fw_uid := servlet_fw_uid s; _controller := true;
                 _path := _path s; _ports := _ports s ++ [port] |}
  end.

(** [l.remove(x)]: the first occurrence of [x] goes. *)
Fixpoint list_remove (x : Z) (l : list Z) : list Z :=
  match l with
  | [] => []
  | y :: l' => if bool_decide (y = x) then l' else y :: list_remove x l'
  end.

(** [RegistryServlet.unbound_from] *)
Definition unbound_from (path : string) (parameters : gmap string Z)
    (s : RegistryServlet) : res RegistryServlet :=
  match parameters !! "http.port" with
  | None => Raise KeyError
  | Some port =>
      if bool_decide (port ∈ _ports s) then
        let ports := list_remove port (_ports s) in
        Ok {| servlet_fw_uid := servlet_fw_uid s;
              _controller := match ports with
                             | [] => false
                             | _ :: _ => _controller s
                             end;
              _path := _path s; _ports := ports |}
      else Ok s
  end.

(** [RegistryServlet.get_access] *)
Definition get_access (s : RegistryServlet) : option (Z * option string) :=
  match _ports s with
  | [] => None
  | port :: _ => Some (port, _path s)
  end.

(** The service is provided exactly while a server is bound, and no port
    is listed twice. *)
Definition servlet_ok (s : RegistryServlet) : Prop :=
  NoDup (_ports s) ∧ (_controller s = true ↔ _ports s ≠ []).

(** [l[-2]] *)
Definition penultimate (l : list string) : res string :=
  match reverse l with
  | _ :: x :: _ => Ok x
  | _ => Raise (OtherException "IndexError")
  end.

Section ServletGet.

Context {W : Type}.

(** [json.dumps], of the standard library. *)
Variable dumps : json → string.

(** [RegistryServlet.do_GET], with the servlet's [_fw_uid].  The data to
    send is [None] where the source has answered and returned. *)
Definition do_GET (fw_uid : option string) (request : Request) : M W unit :=
  let path_parts := split "/" (get_path request) in
  before ← lift (penultimate path_parts);
  d ← get;
  data ←
    (if String.eqb before "endpoint" then
       let uid := List.last path_parts EmptyString in
       match get_endpoint uid d with
       | None =>
           send_content 404 ("Unknown UID: " +:+ uid) "text/plain" ;; ret None
       | Some endpoint => ret (Some (_make_endpoint_dict fw_uid endpoint))
       end
     else if String.eqb (List.last path_parts EmptyString) "endpoints" then
       let endpoints := get_endpoints None None d in
       match endpoints with
       | [] => ret (Some (JArr []))
       | _ :: _ => ret (Some (JArr (_make_endpoint_dict fw_uid <$> endpoints)))
       end
     else
       send_content 404 "Unhandled path" "text/plain" ;; ret None);
  match data with
  | Some data => send_content 200 (dumps data) "application/json"
  | None => ret tt
  end.

End ServletGet.

(** A text without [/]: one segment of a path. *)
Definition segment (s : string) : Prop := split "/" s = [s].

(** The keys [register_endpoint] reads in a wire record. *)
Definition wire_keys : list string :=
  ["sender"; "properties"; "uid"; "configurations"; "name"; "specifications"].

(** The import endpoint [register_endpoint] makes of the wire record of
    [ep], sent by the framework [fw_uid] from [host]. *)
Definition imported_from (host : string) (fw_uid : option string)
    (ep : Endpoint) : ImportEndpoint :=
  {| ie_uid := JStr (uid ep); ie_framework := sender_of fw_uid;
     ie_configurations := JArr (JStr <$> configurations ep);
     ie_name := JStr (name ep);
     ie_specifications := JArr (JStr <$> specifications ep);
     ie_properties := filter_properties (sender_of fw_uid) (properties ep);
     ie_server := host |}.

(** ** More samples *)

(** A dispatcher with two exporters and a listener bound, before
    validation. *)
Definition bound : Dispatcher :=
  {| _exporters := [0; 1]; _listeners := [0]; _fw_uid := None;
     __endpoints := ∅; __uid_exporter := ∅; __service_uids := ∅;
     __validated := false |}.

(** A framework of UID ["fw-2"] where [service_a] and [service_b] are
    registered. *)
Definition sample_context : BundleContext unit :=
  {| framework_uid := Some "fw-2";
     get_all_service_references := λ _ w, (Some [service_a; service_b], w);
     add_service_listener := λ _ w, w |}.

Definition registered_a : ServiceEvent :=
  {| get_kind := REGISTERED; get_service_reference := service_a;
     get_previous_properties := ∅ |}.

Definition unregistering_a : ServiceEvent :=
  {| get_kind := UNREGISTERING; get_service_reference := service_a;
     get_previous_properties := ∅ |}.

(** A dispatcher with two exporters and two listeners that has exported
    [service_a]: it holds an endpoint of each exporter. *)
Definition exported_two : Dispatcher :=
  after (__export_service friendly service_a) (fresh [0; 1] [0; 1]) tt.

(** The parameters of a server on port 8080. *)
Definition one_port : gmap string Z := {["http.port" := 8080%Z]}.

(** A request without body. *)
Definition get_request (path : string) : Request :=
  {| get_path := path; read_data := EmptyString;
     get_client_address := ("10.0.0.7", 8080%Z) |}.

(** A serializer that answers the text of [sample_body] for every value. *)
Definition sample_dumps (v : json) : string := sample_body.

(** * Properties *)

(** ** Running a computation *)

(** Reduce the projections of a run that is given by its four fields. *)
Tactic Notation "fields" := cbn [result disp world events].
Tactic Notation "fields" "in" "*" := cbn [result disp world events] in *.

(** A trace of one log record holds exports and log records only. *)
Ltac one_log := constructor; [right; eauto | constructor].

Lemma run_eta {W A} (r : run W A) :
  Run (result r) (disp r) (world r) (events r) = r.
Proof. by destruct r. Qed.

Lemma bind_ok {W A B} (m : M W A) (f : A → M W B) d w a d1 w1 tr1 :
  m d w = Run (Ok a) d1 w1 tr1 →
  (m ≫= f) d w =
  Run (result (f a d1 w1)) (disp (f a d1 w1)) (world (f a d1 w1))
      (tr1 ++ events (f a d1 w1)).
Proof. intros H. unfold mbind, M_bind, bind. by rewrite H. Qed.

Lemma bind_raise {W A B} (m : M W A) (f : A → M W B) d w e d1 w1 tr1 :
  m d w = Run (Raise e) d1 w1 tr1 →
  (m ≫= f) d w = Run (Raise e) d1 w1 tr1.
Proof. intros H. unfold mbind, M_bind, bind. by rewrite H. Qed.

Lemma bind_get {W A} (f : Dispatcher → M W A) d w : (get ≫= f) d w = f d d w.
Proof. erewrite bind_ok by reflexivity. simpl. apply run_eta. Qed.

Lemma bind_ret {W A B} (a : A) (f : A → M W B) d w : (ret a ≫= f) d w = f a d w.
Proof. erewrite bind_ok by reflexivity. simpl. apply run_eta. Qed.

Lemma bind_modify {W A} (g : Dispatcher → Dispatcher) (f : unit → M W A) d w :
  (modify g ≫= f) d w = f tt (g d) w.
Proof. erewrite bind_ok by reflexivity. simpl. apply run_eta. Qed.

Lemma bind_emit {W A} (e : event) (f : unit → M W A) d w :
  (emit e ≫= f) d w =
  Run (result (f tt d w)) (disp (f tt d w)) (world (f tt d w)) (e :: events (f tt d w)).
Proof. by erewrite bind_ok by reflexivity. Qed.

Lemma omap_none {A B} (f : A → option B) (l : list A) :
  Forall (λ x, f x = None) l → omap f l = [].
Proof. induction 1 as [|x l Hx _ IH]; simpl; [done|]. by rewrite Hx. Qed.

(** ** Listeners *)

Section Listeners.
Context {W : Type} (env : World W).

Lemma call_listener_run l n d w :
  ∃ x w', call_listener env l n d w =
          Run (match x with None => Ok tt | Some e => Raise e end) d w' [Notify l n x].
Proof.
  unfold call_listener. destruct (listener_call env l n w) as [x w']. by exists x, w'.
Qed.

Lemma listeners_loop n ls d w :
  let r := for_each (λ l, call_listener env l n) ls d w in
  disp r = d ∧
  Forall (is_notify n) (events r) ∧
  notifications (events r) `prefix_of` broadcast ls n ∧
  (failures (events r) = [] → result r = Ok tt) ∧
  (result r = Ok tt → notifications (events r) = broadcast ls n ∧ failures (events r) = []).
Proof.
  revert w. induction ls as [|l ls IH]; intros w; simpl.
  { split_and!; try done. }
  destruct (call_listener_run l n d w) as ([x|] & w' & Hc).
  - erewrite bind_raise by exact Hc. simpl. split_and!; try done.
    + repeat constructor. by exists l, (Some x).
    + apply prefix_cons, prefix_nil.
  - erewrite bind_ok by exact Hc. simpl.
    destruct (IH w') as (Hd & Hn & Hp & Hf & Hr).
    split_and!; try done.
    + constructor; [by exists l, None|done].
    + by apply prefix_cons.
    + intros H. destruct (Hr H) as [-> Hq]. done.
Qed.
End Listeners.

Section ExportLoop.
Context {W : Type} (env : World W).

Lemma notify_projections n tr :
  Forall (is_notify n) tr →
  export_answers tr = [] ∧ queried tr = [] ∧ accepted tr = [].
Proof.
  intros H. split_and!; apply omap_none; eapply Forall_impl; try exact H;
    by intros e (l & x & ->).
Qed.

Lemma handles_projections tr :
  Forall is_handles tr →
  export_answers tr = [] ∧ notifications tr = [] ∧ failures tr = [].
Proof.
  intros H. split_and!; apply omap_none; eapply Forall_impl; try exact H;
    by intros e (ex & c & b & ->).
Qed.

Lemma export_projections tr :
  Forall is_export_or_log tr →
  notifications tr = [] ∧ queried tr = [] ∧ accepted tr = [] ∧ failures tr = [].
Proof.
  intros H. split_and!; apply omap_none; eapply Forall_impl; try exact H;
    by intros e [(ex & ref & nm & fw & a & ->)|(lvl & s & ->)].
Qed.

Lemma call_handles_run ex c d w :
  ∃ b w', call_handles env ex c d w = Run (Ok b) d w' [Handles ex c b].
Proof.
  unfold call_handles. destruct (exporter_handles env ex c w) as [b w']. by exists b, w'.
Qed.

Lemma filter_handles c exs d w :
  let r := filter_list (λ ex, call_handles env ex c) exs d w in
  disp r = d ∧
  result r = Ok (accepted (events r)) ∧
  queried (events r) = (λ ex, (ex, c)) <$> exs ∧
  Forall is_handles (events r).
Proof.
  revert w. induction exs as [|ex exs IH]; intros w; simpl; [done|].
  destruct (call_handles_run ex c d w) as (b & w' & Hc).
  erewrite bind_ok by exact Hc. fields.
  destruct (IH w') as (Hd & Hres & Hq & Hall).
  destruct (filter_list _ exs d w') as [res' d' w'' tr'] eqn:E; simpl in *. subst d' res'.
  erewrite bind_ok by exact E. simpl.
  split_and!; try done.
  - rewrite app_nil_r. by destruct b.
  - by rewrite app_nil_r, Hq.
  - rewrite app_nil_r. constructor; [by exists ex, c, b|done].
Qed.

Lemma call_export_service_run ex ref nm fw d w :
  ∃ a w', call_export_service env ex ref nm fw d w =
          Run (Ok a) d w' [ExportService ex ref nm fw a].
Proof.
  unfold call_export_service.
  destruct (exporter_export_service env ex ref nm fw w) as [a w']. by exists a, w'.
Qed.

Lemma export_with_run ref nm ex d w :
  ∃ a w',
    export_with env ref nm ex d w =
    Run (Ok (exported_endpoint a))
        (match a with Exported ep => stored ref ex ep d | _ => d end)
        w'
        (ExportService ex ref nm (_fw_uid d) a ::
         match a with
         | ExportNameError | ExportBundleException =>
             [Log ERROR "Error exporting service: %s"]
         | _ => []
         end).
Proof.
  unfold export_with. rewrite bind_get.
  destruct (call_export_service_run ex ref nm (_fw_uid d) d w) as (a & w' & Hc).
  exists a, w'. erewrite bind_ok by exact Hc.
  destruct a; simpl; try reflexivity.
Qed.

Lemma export_loop_spec ref nm exs d w :
  let r := export_loop env ref nm exs d w in
  result r = Ok (created (events r)) ∧
  asked (events r) = exs ∧
  Forall is_export_or_log (events r) ∧
  _listeners (disp r) = _listeners d ∧
  (is_Some (__service_uids d !! sr_id ref) →
   is_Some (__service_uids (disp r) !! sr_id ref)) ∧
  (created (events r) = [] → disp r = d) ∧
  (endpoints_keyed d → endpoints_keyed (disp r)).
Proof.
  revert d w. induction exs as [|ex exs IH]; intros d w; cbn zeta;
    cbn [export_loop]; [done|].
  destruct (export_with_run ref nm ex d w) as (a & w' & Hc).
  erewrite bind_ok by exact Hc. fields.
  set (d1 := match a with Exported ep => stored ref ex ep d | _ => d end) in *.
  set (step := ExportService ex ref nm (_fw_uid d) a :: _).
  destruct (IH d1 w') as (Hres & Hasked & Hall & Hls & Hkey & Hsame & Hkd).
  destruct (export_loop env ref nm exs d1 w') as [res' d' w'' tr'] eqn:E.
  fields in *. subst res'.
  erewrite bind_ok by exact E. cbn [result disp world events ret].
  rewrite app_nil_r.
  assert (Hans : export_answers (step ++ tr') = (ex, a) :: export_answers tr').
  { unfold export_answers. rewrite omap_app. by destruct a. }
  assert (Hstep : Forall is_export_or_log step).
  { constructor; [left; eauto 10|].
    destruct a; first [by constructor|one_log]. }
  unfold asked, created in *. rewrite Hans.
  cbn [fmap list_fmap omap list_omap fst snd].
  split_and!.
  - by destruct a.
  - by f_equal.
  - by apply Forall_app.
  - rewrite Hls. subst d1. by destruct a.
  - intros Hin. apply Hkey. subst d1. destruct a; try done.
    simpl. rewrite lookup_insert_eq. eauto.
  - subst d1. destruct a; try done; cbn [exported_endpoint]; intros Hnil;
      by rewrite (Hsame Hnil).
  - intros Hk. apply Hkd. subst d1. destruct a; try done.
    intros u ep' Hu. simpl in Hu.
    apply lookup_insert_Some in Hu as [[<- <-]|[_ Hu]]; [done|by apply Hk].
Qed.
End ExportLoop.

Lemma guarded_loop {W A} (f : A → M W unit) (ls : list A) :
  match ls with
  | [] => ret tt
  | l :: ls' => for_each f (l :: ls')
  end = for_each f ls.
Proof. by destruct ls. Qed.

Section ExportService.
Context {W : Type} (env : World W).

Lemma compute_name_total ref :
  ∃ nm, _compute_endpoint_name (get_properties ref) = Ok nm.
Proof.
  unfold _compute_endpoint_name.
  destruct (truthy _); [eauto|].
  unfold get_properties. rewrite lookup_insert_eq. eauto.
Qed.

Lemma recorded_key ref d : is_Some (__service_uids (recorded ref d) !! sr_id ref).
Proof.
  unfold recorded. simpl. destruct (__service_uids d !! sr_id ref) eqn:E.
  - rewrite E. eauto.
  - rewrite lookup_insert_eq. eauto.
Qed.

Lemma export_structure ref d w :
  let r := __export_service env ref d w in
  let configs := get_property ref PROP_EXPORTED_CONFIGS in
  ∃ trh tre trl,
    events r = trh ++ tre ++ trl ∧
    Forall is_handles trh ∧
    Forall is_export_or_log tre ∧
    Forall (is_notify (endpoints_added (created tre))) trl ∧
    (if negb (truthy configs) || is_star configs
     then trh = [] ∧ asked tre = _exporters d
     else queried trh = (λ ex, (ex, configs)) <$> _exporters d
          ∧ asked tre = accepted trh) ∧
    (created tre = [] → trl = []) ∧
    notifications trl `prefix_of`
      broadcast (_listeners d) (endpoints_added (created tre)) ∧
    (result r = Ok tt → created tre ≠ [] →
     notifications trl = broadcast (_listeners d) (endpoints_added (created tre))) ∧
    (failures trl = [] → result r = Ok tt) ∧
    (_exporters d = [] → events r = [Log WARNING "No exporters yet."]) ∧
    is_Some (__service_uids (disp r) !! sr_id ref) ∧
    (created tre = [] → disp r = recorded ref d) ∧
    (endpoints_keyed d → endpoints_keyed (disp r)).
Proof.
  intros r configs. subst r. unfold __export_service.
  rewrite bind_modify. fold (recorded ref d). rewrite bind_get.
  pose proof (recorded_key ref d) as Hkey.
  change (_exporters (recorded ref d)) with (_exporters d).
  destruct (_exporters d) as [|ex0 exs0] eqn:Hexs.
  { exists [], [Log WARNING "No exporters yet."], []. simpl.
    destruct (negb (truthy configs) || is_star configs);
      split_and!; try done; try apply prefix_nil; one_log. }
  fold configs.
  assert (∃ trh cands w1,
    (if negb (truthy configs) || is_star configs
     then ret (ex0 :: exs0)
     else filter_list (λ ex, call_handles env ex configs) (ex0 :: exs0))
      (recorded ref d) w = Run (Ok cands) (recorded ref d) w1 trh ∧
    Forall is_handles trh ∧
    (if negb (truthy configs) || is_star configs
     then trh = [] ∧ cands = ex0 :: exs0
     else queried trh = (λ ex, (ex, configs)) <$> (ex0 :: exs0)
          ∧ cands = accepted trh)) as (trh & cands & w1 & Hsel & Hh & Hc).
  { destruct (negb (truthy configs) || is_star configs).
    - by exists [], (ex0 :: exs0), w.
    - destruct (filter_handles env configs (ex0 :: exs0) (recorded ref d) w)
        as (Hd & Hres & Hq & Hall).
      destruct (filter_list _ (ex0 :: exs0) (recorded ref d) w)
        as [res' d' w' tr'] eqn:E.
      fields in *. subst.
      by exists tr', (accepted tr'), w'. }
  erewrite bind_ok by exact Hsel. fields.
  destruct cands as [|c0 cs].
  { exists trh, [Log WARNING "No exporter for %s"], []. simpl.
    destruct (negb (truthy configs) || is_star configs);
      [by destruct Hc|].
    destruct Hc as [Hq Hacc].
    split_and!; try done; try apply prefix_nil. one_log. }
  destruct (compute_name_total ref) as [nm Hnm]. rewrite Hnm.
  unfold lift. rewrite bind_ret.
  destruct (export_loop_spec env ref nm (c0 :: cs) (recorded ref d) w1)
    as (Hres & Hasked & Hall & Hls & Hk & Hsame & Hkd).
  destruct (export_loop env ref nm (c0 :: cs) (recorded ref d) w1)
    as [res2 d2 w2 tr2] eqn:E2.
  fields in *. subst res2.
  erewrite bind_ok by exact E2. fields.
  assert (Hsel' :
    if negb (truthy configs) || is_star configs
    then trh = [] ∧ asked tr2 = ex0 :: exs0
    else queried trh = (λ ex, (ex, configs)) <$> (ex0 :: exs0)
         ∧ asked tr2 = accepted trh).
  { destruct (negb (truthy configs) || is_star configs); destruct Hc; split; congruence. }
  destruct (created tr2) as [|ep0 eps] eqn:Hcr.
  { exists trh, (tr2 ++ [Log WARNING "No endpoint created for %s"]), [].
    assert (created (tr2 ++ [Log WARNING "No endpoint created for %s"]) = []) as Hcr'.
    { unfold created, export_answers in *. by rewrite omap_app, fmap_app, omap_app, Hcr. }
    assert (asked (tr2 ++ [Log WARNING "No endpoint created for %s"]) = asked tr2) as Ha'.
    { unfold asked, export_answers in *. rewrite omap_app, fmap_app. simpl. by rewrite app_nil_r. }
    simpl. rewrite Hcr', Ha', app_nil_r.
    split_and!; try done; try apply prefix_nil; try (by apply Hk);
      try (intros _; by apply Hsame); try (intros Hx; by apply Hkd).
    apply Forall_app; split; [done|]. one_log. }
  rewrite bind_get. rewrite Hls. change (_listeners (recorded ref d)) with (_listeners d).
  set (n := endpoints_added (ep0 :: eps)).
  rewrite (guarded_loop (λ l, call_listener env l n)).
  remember (for_each (λ l, call_listener env l n) (_listeners d) d2 w2) as r3 eqn:Hr3.
  destruct (listeners_loop env n (_listeners d) d2 w2) as (Hd3 & Hn3 & Hp3 & Hf3 & Hok3).
  rewrite <- Hr3 in *. clear Hr3.
  exists trh, tr2, (events r3). rewrite Hcr. fold n.
  split_and!; try done.
  - by intros [Hx _]%Hok3.
  - rewrite Hd3. by apply Hk.
  - rewrite Hd3. intros Hx. by apply Hkd.
Qed.
End ExportService.

Section ExportClaims.
Context {W : Type} (env : World W).

Lemma export_trace_projections trh tre trl n :
  Forall is_handles trh → Forall is_export_or_log tre → Forall (is_notify n) trl →
  notifications (trh ++ tre ++ trl) = notifications trl ∧
  created (trh ++ tre ++ trl) = created tre ∧
  asked (trh ++ tre ++ trl) = asked tre ∧
  queried (trh ++ tre ++ trl) = queried trh ∧
  accepted (trh ++ tre ++ trl) = accepted trh ∧
  failures (trh ++ tre ++ trl) = failures trl.
Proof.
  intros Hh He Hn.
  destruct (handles_projections _ Hh) as (Hh1 & Hh2 & Hh3).
  destruct (export_projections _ He) as (He1 & He2 & He3 & He4).
  destruct (notify_projections _ _ Hn) as (Hn1 & Hn2 & Hn3).
  unfold created, asked, notifications, queried, accepted, failures in *.
  unfold notifications, export_answers in *.
  rewrite !omap_app.
  rewrite ?Hh1, ?Hh2, ?Hh3, ?He1, ?He2, ?He3, ?He4, ?Hn1, ?Hn2, ?Hn3.
  simpl. by rewrite !app_nil_r.
Qed.


(** C8, as amended.  Export with the [exported.configs] property of the
    service: when it is absent, empty (false as a truth value) or ["*"],
    no exporter is queried and every registered exporter is asked to
    export; otherwise [handles] is called on every registered exporter
    with the property, and exactly those that answer true are asked.  With
    two exporters of which only the first accepts, and returns an endpoint,
    that exporter alone is asked and one endpoint results. *)
Theorem export_asks_candidates ref d w :
  let r := __export_service env ref d w in
  let configs := get_property ref PROP_EXPORTED_CONFIGS in
  (get_properties ref !! PROP_EXPORTED_CONFIGS = None → truthy configs = false) ∧
  (truthy configs = false ∨ configs = JStr "*" →
   queried (events r) = [] ∧ asked (events r) = _exporters d) ∧
  (truthy configs = true → configs ≠ JStr "*" →
   queried (events r) = (λ ex, (ex, configs)) <$> _exporters d ∧
   asked (events r) = accepted (events r)) ∧
  (∀ e1 e2 nm fw ep,
     _exporters d = [e1; e2] →
     truthy configs = true → configs ≠ JStr "*" →
     accepted (events r) = [e1] →
     ExportService e1 ref nm fw (Exported ep) ∈ events r →
     asked (events r) = [e1] ∧ created (events r) = [ep]).
Proof.
  intros r configs.
  destruct (export_structure env ref d w)
    as (trh & tre & trl & Hev & Hh & He & Hn & Hsel & _).
  fold r in Hev. fold configs in Hsel.
  destruct (export_trace_projections _ _ _ _ Hh He Hn)
    as (_ & Hp2 & Hp3 & Hp4 & Hp5 & _).
  rewrite Hev, Hp2, Hp3, Hp4, Hp5.
  assert (Hstar : is_star configs = true ↔ configs = JStr "*").
  { destruct configs; simpl; try (split; [discriminate|congruence]).
    rewrite String.eqb_eq. split; congruence. }
  assert (Hfilter : truthy configs = true → configs ≠ JStr "*" →
    queried trh = (λ ex, (ex, configs)) <$> _exporters d ∧ asked tre = accepted trh).
  { intros Ht Hs. rewrite Ht in Hsel. simpl in Hsel.
    destruct (is_star configs) eqn:E; [|done]. exfalso. apply Hs. by apply Hstar. }
  split_and!.
  - unfold configs, get_property. by intros ->.
  - intros Hc.
    assert (negb (truthy configs) || is_star configs = true) as Hb.
    { destruct Hc as [->| ->%Hstar]; [done|]. apply orb_true_r. }
    rewrite Hb in Hsel. destruct Hsel as [-> ->]. done.
  - done.
  - intros e1 e2 nm fw ep Hex Ht Hs Hacc Hin.
    destruct (Hfilter Ht Hs) as [_ Hasked]. rewrite Hacc in Hasked.
    split; [done|].
    assert ((e1, Exported ep) ∈ export_answers tre) as Hans.
    { assert ((e1, Exported ep) ∈ export_answers (trh ++ tre ++ trl)) as H.
      { unfold export_answers. apply list_elem_of_omap.
        exists (ExportService e1 ref nm fw (Exported ep)). split; [exact Hin|done]. }
      destruct (handles_projections _ Hh) as (Hh1 & _).
      destruct (notify_projections _ _ Hn) as (Hn1 & _).
      unfold export_answers in *. rewrite !omap_app in H.
      rewrite Hh1, Hn1 in H. simpl in H. by rewrite app_nil_r in H. }
    unfold asked, created in *.
    destruct (export_answers tre) as [|[x a] [|? ?]]; simpl in *; try done.
    apply list_elem_of_singleton in Hans. by inversion Hans.
Qed.
End ExportClaims.

Section RecordClaims.
Context {W : Type} (env : World W).

Lemma update_without_record ref old d w :
  __service_uids d !! sr_id ref = None →
  __update_service env ref old d w = Run (Ok tt) d w [].
Proof. intros H. unfold __update_service. rewrite bind_get. by rewrite H. Qed.

Lemma update_empty_record ref old d w :
  __service_uids d !! sr_id ref = Some ∅ →
  __update_service env ref old d w = Run (Ok tt) d w [].
Proof.
  intros H. unfold __update_service. rewrite bind_get. rewrite H.
  by rewrite elements_empty.
Qed.

Lemma unexport_without_record ref d w :
  __service_uids d !! sr_id ref = None →
  __unexport_service env ref d w = Run (Ok tt) d w [].
Proof. intros H. unfold __unexport_service. rewrite bind_get. by rewrite H. Qed.

(** C10.  After an export pass, however it ends, the service reference is a
    key of the record map; when it was not one before and no endpoint was
    created, its record is the empty set.  A later MODIFIED event for the
    reference is therefore handled by [__update_service], which does
    nothing over an empty record. *)
Theorem export_records_reference ref d w :
  let r := __export_service env ref d w in
  is_Some (__service_uids (disp r) !! sr_id ref) ∧
  (__service_uids d !! sr_id ref = None → created (events r) = [] →
   __service_uids (disp r) !! sr_id ref = Some ∅) ∧
  (∀ ev w',
     get_kind ev = MODIFIED →
     sr_id (get_service_reference ev) = sr_id ref →
     service_changed env ev (disp r) w' =
     __update_service env (get_service_reference ev)
       (get_previous_properties ev) (disp r) w') ∧
  (∀ ref' old w',
     sr_id ref' = sr_id ref →
     __service_uids (disp r) !! sr_id ref = Some ∅ →
     __update_service env ref' old (disp r) w' = Run (Ok tt) (disp r) w' []).
Proof.
  intros r.
  destruct (export_structure env ref d w)
    as (trh & tre & trl & Hev & Hh & He & Hn & _ & _ & _ & _ & _ & _ & Hkey & Hsame & _).
  fold r in Hev, Hkey, Hsame.
  destruct (export_trace_projections _ _ _ _ Hh He Hn) as (_ & Hp2 & _).
  split_and!.
  - done.
  - intros Hnone Hcr. rewrite Hev, Hp2 in Hcr. rewrite (Hsame Hcr).
    unfold recorded. simpl. rewrite Hnone. by rewrite lookup_insert_eq.
  - intros ev w' Hk Hid. unfold service_changed. rewrite bind_get, Hk, Hid.
    by destruct Hkey as [uids ->].
  - intros ref' old w' Hid Hempty. apply update_empty_record. by rewrite Hid.
Qed.
End RecordClaims.

Lemma notifications_app tr1 tr2 :
  notifications (tr1 ++ tr2) = notifications tr1 ++ notifications tr2.
Proof. apply omap_app. Qed.

Section UnexportClaims.
Context {W : Type} (env : World W).

(** A listener call under [try: ... except Exception:]. *)
Lemma guarded_call_run l n (fmt : string) d w :
  ∃ x w',
    try_except (call_listener env l n) (λ _, log ERROR fmt) d w =
    Run (Ok tt) d w'
        (Notify l n x :: match x with Some _ => [Log ERROR fmt] | None => [] end).
Proof.
  unfold try_except.
  destruct (call_listener_run env l n d w) as (x & w' & ->).
  exists x, w'. by destruct x.
Qed.

Lemma isolated_loop n (fmt : string) ls d w :
  let r := for_each (λ l, try_except (call_listener env l n) (λ _, log ERROR fmt)) ls d w in
  result r = Ok tt ∧ disp r = d ∧
  notifications (events r) = broadcast ls n ∧
  Forall (is_notify_or_log n) (events r).
Proof.
  revert w. induction ls as [|l ls IH]; intros w; simpl; [done|].
  destruct (guarded_call_run l n fmt d w) as (x & w' & Hc).
  erewrite bind_ok by exact Hc. fields.
  destruct (IH w') as (Hres & Hd & Hn & Hall).
  split_and!; try done.
  - change (?e :: ?t ++ ?u) with ((e :: t) ++ u).
    rewrite notifications_app, Hn. by destruct x.
  - constructor; [left; eauto|].
    destruct x; simpl; [constructor; [right; eauto|]|]; done.
Qed.

Lemma unexport_uid_spec u d w :
  let r := unexport_uid env u d w in
  result r = Ok tt ∧
  __endpoints (disp r) = delete u (__endpoints d) ∧
  __service_uids (disp r) = __service_uids d ∧
  _listeners (disp r) = _listeners d.
Proof.
  unfold unexport_uid. rewrite bind_get.
  destruct (__endpoints d !! u) as [ep|] eqn:Hep.
  2:{ simpl. split_and!; try done. by rewrite delete_id. }
  rewrite bind_modify.
  destruct (__uid_exporter d !! u) as [ex|] eqn:Hex; [|done].
  rewrite bind_modify.
  erewrite bind_ok by reflexivity. fields.
  rewrite guarded_loop.
  match goal with |- context [for_each ?f ?ls ?d' ?w'] =>
    destruct (isolated_loop (endpoint_removed ep None)
                "Error notifying listener: %s" ls d' w') as (Hres & Hd & _)
  end.
  rewrite Hres, Hd. done.
Qed.

Lemma unexport_loop_spec us d w :
  let r := for_each (unexport_uid env) us d w in
  result r = Ok tt ∧
  __service_uids (disp r) = __service_uids d ∧
  (∀ u, u ∈ us → __endpoints (disp r) !! u = None) ∧
  (∀ u, __endpoints d !! u = None → __endpoints (disp r) !! u = None).
Proof.
  revert d w. induction us as [|u us IH]; intros d w; simpl.
  { split_and!; try done. intros u Hu. by apply elem_of_nil in Hu. }
  destruct (unexport_uid_spec u d w) as (Hres & Hep & Hsu & _).
  destruct (unexport_uid env u d w) as [res1 d1 w1 tr1] eqn:E.
  fields in *. subst res1.
  erewrite bind_ok by exact E. fields.
  destruct (IH d1 w1) as (Hres' & Hsu' & Hgone & Hkeep).
  split_and!.
  - done.
  - congruence.
  - intros u' [->|Hin]%elem_of_cons; [|by apply Hgone].
    apply Hkeep. rewrite Hep. apply lookup_delete_eq.
  - intros u' Hnone. apply Hkeep. rewrite Hep.
    destruct (decide (u = u')) as [->|Hne];
      [apply lookup_delete_eq|by rewrite lookup_delete_ne].
Qed.

(** C9.  Binding a listener always returns and leaves the dispatcher as it
    was.  With an empty index the listener is not called.  With N > 0
    endpoints it receives exactly one [endpoints_added] call, whose
    argument has length N and holds exactly the current endpoints; if the
    listener raises, the failure is logged. *)
Theorem bind_listener_snapshot l d w :
  let r := _bind_listener env l d w in
  let eps := endpoint_values d in
  result r = Ok tt ∧ disp r = d ∧
  (__endpoints d = ∅ → events r = []) ∧
  List.length eps = size (__endpoints d) ∧
  (∀ ep, ep ∈ eps ↔ ∃ u, __endpoints d !! u = Some ep) ∧
  (__endpoints d ≠ ∅ →
   notifications (events r) = [(l, endpoints_added eps)] ∧
   (failures (events r) ≠ [] →
    Log ERROR "Error notifying newly bound listener: %s" ∈ events r)).
Proof.
  intros r eps. subst r. unfold _bind_listener. rewrite bind_get.
  assert (Hlen : List.length eps = size (__endpoints d)).
  { unfold eps, endpoint_values. by rewrite length_fmap, length_map_to_list. }
  assert (Hmem : ∀ ep, ep ∈ eps ↔ ∃ u, __endpoints d !! u = Some ep).
  { intros ep. unfold eps, endpoint_values. rewrite list_elem_of_fmap. split.
    - intros ([u ep'] & -> & Hin). exists u. by apply elem_of_map_to_list.
    - intros (u & Hu). exists (u, ep). split; [done|]. by apply elem_of_map_to_list. }
  case_bool_decide as Hempty.
  { simpl. split_and!; try done. }
  fold eps.
  destruct (guarded_call_run l (endpoints_added eps)
              "Error notifying newly bound listener: %s" d w) as (x & w' & ->).
  fields.
  split_and!; try done.
  intros _. split; [by destruct x|].
  destruct x; simpl; [|done]. intros _. rewrite !elem_of_cons. auto.
Qed.
End UnexportClaims.

Lemma failures_app tr1 tr2 :
  failures (tr1 ++ tr2) = failures tr1 ++ failures tr2.
Proof. apply omap_app. Qed.

Lemma events_about_app u tr1 tr2 :
  events_about u (tr1 ++ tr2) = events_about u tr1 ++ events_about u tr2.
Proof. apply List.filter_app. Qed.

Section UpdateClaims.
Context {W : Type} (env : World W).
Context (ref : ServiceReference) (old : gmap string json).

Lemma call_update_export_run ex ep nm d w :
  ∃ a w', call_update_export env ex ep nm old d w =
          Run (Ok a) d w' [UpdateExport ex ep nm old a].
Proof.
  unfold call_update_export.
  destruct (exporter_update_export env ex ep nm old w) as [a w']. by exists a, w'.
Qed.

Lemma update_uid_present u ex ep d w :
  __uid_exporter d !! u = Some ex →
  __endpoints d !! u = Some ep →
  ∃ nm a trl,
    events (update_uid env ref old u d w) =
      (UpdateExport ex ep nm old a ::
       match a with
       | UpdateNameError =>
           [Log ERROR "Error updating service properties: %s"; UnexportService ex ep]
       | Updated => []
       end) ++ trl ∧
    Forall (is_notify (update_notification old ep a)) trl ∧
    notifications trl `prefix_of` broadcast (_listeners d) (update_notification old ep a) ∧
    (failures trl = [] →
     notifications trl = broadcast (_listeners d) (update_notification old ep a) ∧
     result (update_uid env ref old u d w) = Ok tt) ∧
    disp (update_uid env ref old u d w) = d.
Proof.
  intros Hex Hep. unfold update_uid. rewrite bind_get, Hex, Hep.
  destruct (compute_name_total ref) as [nm ->]. unfold lift. rewrite bind_ret.
  destruct (call_update_export_run ex ep nm d w) as (a & w' & Hc).
  erewrite bind_ok by exact Hc. fields.
  exists nm, a.
  destruct a.
  - rewrite guarded_loop.
    destruct (listeners_loop env (endpoint_updated ep old) (_listeners d) d w')
      as (Hd & Hn & Hp & Hf & Hok).
    eexists. split; [reflexivity|]. simpl. split_and!; try done.
    intros H. split; [|by apply Hf]. by apply Hok, Hf.
  - unfold log. rewrite bind_emit. fields.
    erewrite bind_ok by reflexivity. fields.
    rewrite guarded_loop.
    match goal with |- context [for_each _ _ d ?w2] =>
      destruct (listeners_loop env (endpoint_removed ep (Some old)) (_listeners d) d w2)
        as (Hd & Hn & Hp & Hf & Hok)
    end.
    eexists. split; [reflexivity|]. simpl. split_and!; try done.
    intros H. split; [|by apply Hf]. by apply Hok, Hf.
Qed.

Lemma update_uid_missing u d w :
  __uid_exporter d !! u = None ∨ __endpoints d !! u = None →
  update_uid env ref old u d w =
  Run (match __service_uids d !! sr_id ref with
       | None => Raise KeyError
       | Some _ => Raise AttributeError
       end) d w [Log WARNING "No exporter for endpoint %s"].
Proof.
  intros H. unfold update_uid. rewrite bind_get.
  assert (match __uid_exporter d !! u, __endpoints d !! u with
          | Some _, Some _ => False
          | _, _ => True
          end) as Hm.
  { destruct H as [-> | ->]; [done|]. by destruct (__uid_exporter d !! u). }
  destruct (__uid_exporter d !! u), (__endpoints d !! u); try done;
    unfold log; rewrite bind_emit; by destruct (__service_uids d !! sr_id ref).
Qed.

Lemma update_uid_disp u d w : disp (update_uid env ref old u d w) = d.
Proof.
  destruct (__uid_exporter d !! u) as [ex|] eqn:Hex;
    [destruct (__endpoints d !! u) as [ep|] eqn:Hep|].
  - by destruct (update_uid_present u ex ep d w Hex Hep) as (? & ? & ? & _ & _ & _ & _ & ?).
  - rewrite update_uid_missing by auto. done.
  - rewrite update_uid_missing by auto. done.
Qed.

Lemma notify_about_same n u tr :
  Forall (is_notify n) tr → about u n = true → events_about u tr = tr.
Proof.
  intros H Hn. induction H as [|e tr (l & x & ->) _ IH]; [done|].
  simpl. rewrite Hn. by f_equal.
Qed.

Lemma notify_about_other n u tr :
  Forall (is_notify n) tr → about u n = false → events_about u tr = [].
Proof.
  intros H Hn. induction H as [|e tr (l & x & ->) _ IH]; [done|].
  simpl. by rewrite Hn.
Qed.

Lemma update_uid_other u u0 d w :
  endpoints_keyed d → u ≠ u0 →
  events_about u0 (events (update_uid env ref old u d w)) = [].
Proof.
  intros Hk Hne.
  destruct (__uid_exporter d !! u) as [ex|] eqn:Hex;
    [destruct (__endpoints d !! u) as [ep|] eqn:Hep|].
  - destruct (update_uid_present u ex ep d w Hex Hep)
      as (nm & a & trl & -> & Hn & _).
    assert (String.eqb (uid ep) u0 = false) as Hneq.
    { apply String.eqb_neq. by rewrite (Hk _ _ Hep). }
    rewrite events_about_app.
    rewrite (notify_about_other _ _ _ Hn) by (by destruct a).
    destruct a; simpl; by rewrite Hneq.
  - rewrite update_uid_missing by auto. done.
  - rewrite update_uid_missing by auto. done.
Qed.

Lemma update_loop_other us u0 d w :
  endpoints_keyed d → u0 ∉ us →
  events_about u0 (events (for_each (update_uid env ref old) us d w)) = [].
Proof.
  intros Hk. revert w. induction us as [|u us IH]; intros w Hnot; [done|].
  apply not_elem_of_cons in Hnot as [Hne Hnot]. cbn [for_each].
  pose proof (update_uid_other u u0 d w Hk (not_eq_sym Hne)) as Hstep.
  pose proof (update_uid_disp u d w) as Hd.
  destruct (update_uid env ref old u d w) as [[[]|e] d1 w1 tr1] eqn:E;
    fields in *; subst d1.
  - erewrite bind_ok by exact E. cbn [events].
    by rewrite events_about_app, Hstep, IH.
  - erewrite bind_raise by exact E. done.
Qed.

Lemma update_loop_about us u0 d w :
  endpoints_keyed d → NoDup us →
  let r := for_each (update_uid env ref old) us d w in
  events_about u0 (events r) = [] ∨
  (u0 ∈ us ∧ ∃ w1,
     events_about u0 (events r) =
       events_about u0 (events (update_uid env ref old u0 d w1)) ∧
     ∀ e, e ∈ events (update_uid env ref old u0 d w1) → e ∈ events r).
Proof.
  intros Hk. revert w. induction us as [|u us IH]; intros w Hnd; [by left|].
  apply NoDup_cons in Hnd as [Hnot Hnd]. cbn zeta. cbn [for_each].
  pose proof (update_uid_disp u d w) as Hd.
  destruct (decide (u = u0)) as [->|Hne].
  - right. split; [by left|]. exists w.
    pose proof (update_loop_other us u0 d) as Hrest.
    destruct (update_uid env ref old u0 d w) as [[[]|e] d1 w1 tr1] eqn:E;
      fields in *; subst d1.
    + erewrite bind_ok by exact E. cbn [events].
      rewrite events_about_app, Hrest, app_nil_r by done.
      split; [done|]. intros e He. apply elem_of_app. by left.
    + erewrite bind_raise by exact E. done.
  - pose proof (update_uid_other u u0 d w Hk Hne) as Hstep.
    destruct (update_uid env ref old u d w) as [[[]|e] d1 w1 tr1] eqn:E;
      fields in *; subst d1.
    + erewrite bind_ok by exact E. cbn [events].
      rewrite events_about_app, Hstep. simpl.
      destruct (IH w1 Hnd) as [Hnil|(Hin & w2 & Heq & Hsub)]; [by left|].
      right. split; [by right|]. exists w2. split; [done|].
      intros e He. apply elem_of_app. right. by apply Hsub.
    + erewrite bind_raise by exact E. by left.
Qed.
End UpdateClaims.

Lemma failures_nil_sub tr tr' :
  failures tr = [] → (∀ e, e ∈ tr' → e ∈ tr) → failures tr' = [].
Proof.
  intros Hnil Hsub. unfold failures in *.
  destruct (omap _ tr') as [|p ps] eqn:E; [done|].
  assert (p ∈ omap (λ e, match e with
                         | Notify l _ (Some x) => Some (l, x)
                         | _ => None
                         end) tr') as Hin by (rewrite E; left).
  apply list_elem_of_omap in Hin as (e & He & Hfe).
  assert (p ∈ omap (λ e, match e with
                         | Notify l _ (Some x) => Some (l, x)
                         | _ => None
                         end) tr) as Hin'.
  { apply list_elem_of_omap. exists e. split; [by apply Hsub|done]. }
  rewrite Hnil in Hin'. by apply elem_of_nil in Hin'.
Qed.

Section UpdateTheorem.
Context {W : Type} (env : World W).


Lemma update_about ref old d w ex ep nm a :
  endpoints_keyed d →
  let r := __update_service env ref old d w in
  UpdateExport ex ep nm old a ∈ events r →
  __uid_exporter d !! uid ep = Some ex ∧
  __endpoints d !! uid ep = Some ep ∧
  unexports_about (uid ep) (events r) =
    match a with UpdateNameError => [(ex, ep)] | Updated => [] end ∧
  notifications_about (uid ep) (events r) `prefix_of`
    broadcast (_listeners d) (update_notification old ep a) ∧
  (failures (events r) = [] →
   notifications_about (uid ep) (events r) =
   broadcast (_listeners d) (update_notification old ep a)).
Proof.
  intros Hk r Hin. subst r. unfold __update_service in *. rewrite bind_get in *.
  destruct (__service_uids d !! sr_id ref) as [uids|]; [|by apply elem_of_nil in Hin].
  set (r := for_each (update_uid env ref old) (elements uids) d w) in *.
  assert (Hab : UpdateExport ex ep nm old a ∈ events_about (uid ep) (events r)).
  { unfold events_about. apply list_elem_of_In, List.filter_In.
    split; [by apply list_elem_of_In|]. simpl. apply String.eqb_refl. }
  destruct (update_loop_about env ref old (elements uids) (uid ep) d w Hk
              (NoDup_elements uids)) as [Hnil|(_ & w1 & Heq & Hsub)].
  { fold r in Hnil. rewrite Hnil in Hab. by apply elem_of_nil in Hab. }
  fold r in Heq, Hsub.
  unfold notifications_about, unexports_about. rewrite Heq in *. clear Heq.
  destruct (__uid_exporter d !! uid ep) as [ex'|] eqn:Hex;
    [destruct (__endpoints d !! uid ep) as [ep'|] eqn:Hep|].
  2,3: rewrite update_uid_missing in Hab by auto;
       by apply elem_of_nil in Hab.
  destruct (update_uid_present env ref old (uid ep) ex' ep' d w1 Hex Hep)
    as (nm' & a' & trl & Hev & Hn & Hp & Hf & _).
  rewrite Hev in *. clear Hev.
  assert (Huid : String.eqb (uid ep') (uid ep) = true).
  { apply String.eqb_eq. by apply Hk. }
  assert (Hab' : about (uid ep) (update_notification old ep' a') = true)
    by (by destruct a').
  rewrite events_about_app in *.
  rewrite (notify_about_same _ _ _ Hn Hab') in *.
  assert (Hhead : UpdateExport ex ep nm old a = UpdateExport ex' ep' nm' old a').
  { apply elem_of_app in Hab as [Hab|Hab].
    - destruct a'; simpl in Hab; rewrite Huid in Hab;
        repeat (apply elem_of_cons in Hab as [Hab|Hab]; try done);
        by apply elem_of_nil in Hab.
    - apply list_elem_of_In in Hab.
      rewrite List.Forall_forall in Hn. by destruct (Hn _ Hab) as (? & ? & ?). }
  injection Hhead as <- <- <- <-.
  destruct (notify_projections _ _ Hn) as (_ & _ & _).
  assert (Hnl : omap (λ e, match e with
                           | UnexportService ex ep => Some (ex, ep)
                           | _ => None
                           end) trl = []).
  { apply omap_none. eapply Forall_impl; [exact Hn|]. by intros e (? & ? & ->). }
  split_and!; try done.
  - rewrite omap_app, Hnl. destruct a; simpl; by rewrite Huid.
  - rewrite notifications_app. destruct a; simpl; by rewrite Huid.
  - intros Hno. rewrite notifications_app.
    assert (failures trl = []) as Hno'.
    { apply (failures_nil_sub _ _ Hno). intros e He. apply Hsub.
      apply elem_of_app. by right. }
    destruct (Hf Hno') as [-> _]. destruct a; simpl; by rewrite Huid.
Qed.

End UpdateTheorem.

Lemma delete_if_present (key : string) (p : gmap string json) :
  match p !! key with
  | Some _ => delete key p
  | None => p
  end = delete key p.
Proof. destruct (p !! key) eqn:E; [done|]. by rewrite delete_id. Qed.

Lemma filter_properties_unfold fw (props : gmap string json) :
  filter_properties fw props =
  <[PROP_FRAMEWORK_UID := fw]>
    (delete PROP_EXPORTED_INTERFACES
       (delete PROP_EXPORTED_CONFIGS
          (match props !! PROP_EXPORTED_CONFIGS with
           | Some v => <[PROP_IMPORTED_CONFIGS := v]>
                         (<[PROP_IMPORTED := JBool true]> props)
           | None => <[PROP_IMPORTED := JBool true]> props
           end))).
Proof.
  unfold filter_properties. cbn zeta. cbn [foldl].
  rewrite !delete_if_present.
  by rewrite (lookup_insert_ne props PROP_IMPORTED PROP_EXPORTED_CONFIGS).
Qed.

Lemma filter_properties_lookup fw (props : gmap string json) :
  let p := filter_properties fw props in
  p !! PROP_IMPORTED = Some (JBool true) ∧
  p !! PROP_IMPORTED_CONFIGS =
    match props !! PROP_EXPORTED_CONFIGS with
    | Some v => Some v
    | None => props !! PROP_IMPORTED_CONFIGS
    end ∧
  p !! PROP_EXPORTED_CONFIGS = None ∧
  p !! PROP_EXPORTED_INTERFACES = None ∧
  p !! PROP_FRAMEWORK_UID = Some fw ∧
  (∀ k, k ∉ [PROP_IMPORTED; PROP_IMPORTED_CONFIGS; PROP_EXPORTED_CONFIGS;
             PROP_EXPORTED_INTERFACES; PROP_FRAMEWORK_UID] →
        p !! k = props !! k).
Proof.
  cbn zeta. rewrite filter_properties_unfold.
  unfold PROP_IMPORTED, PROP_IMPORTED_CONFIGS,
    PROP_EXPORTED_CONFIGS, PROP_EXPORTED_INTERFACES, PROP_FRAMEWORK_UID.
  destruct (props !! "exported.configs") as [v|] eqn:Hc.
  - split_and!; try (by simplify_map_eq).
    intros k Hk. rewrite !not_elem_of_cons in Hk.
    destruct Hk as (? & ? & ? & ? & ? & _). by simplify_map_eq.
  - split_and!; try (by simplify_map_eq).
    intros k Hk. rewrite !not_elem_of_cons in Hk.
    destruct Hk as (? & ? & ? & ? & ? & _). by simplify_map_eq.
Qed.

Section ServletClaims.
Context {W : Type} (env : World W).

Lemma register_wire_record host fw_uid ep d w :
  register_endpoint env host (_make_endpoint_dict fw_uid ep) d w =
  Run (Ok tt) d
    (registry_add env
       {| ie_uid := JStr (uid ep); ie_framework := sender_of fw_uid;
          ie_configurations := JArr (JStr <$> configurations ep);
          ie_name := JStr (name ep);
          ie_specifications := JArr (JStr <$> specifications ep);
          ie_properties := filter_properties (sender_of fw_uid) (properties ep);
          ie_server := host |} w)
    [RegistryAdd
       {| ie_uid := JStr (uid ep); ie_framework := sender_of fw_uid;
          ie_configurations := JArr (JStr <$> configurations ep);
          ie_name := JStr (name ep);
          ie_specifications := JArr (JStr <$> specifications ep);
          ie_properties := filter_properties (sender_of fw_uid) (properties ep);
          ie_server := host |}].
Proof.
  unfold register_endpoint, _make_endpoint_dict, getitem.
  repeat (first [rewrite (lookup_insert_eq (M:=gmap string))
                |rewrite (lookup_insert_ne (M:=gmap string)) by done];
          cbn [lift]; try rewrite bind_ret).
  reflexivity.
Qed.

(** The body of [sample_body] decodes to the wire record of the sample
    endpoint, and posting it registers one import endpoint tagged with the
    address of the requester. *)
Example post_one_record :
  json_loads sample_body =
    Some (Ok (JArr [_make_endpoint_dict (Some "fw-1") (sample_endpoint 0)])) ∧
  ∃ m, do_POST friendly (post_request sample_body) = Some m ∧
       result (m (fresh [] []) tt) = Ok tt ∧
       responses (events (m (fresh [] []) tt)) = [(200%Z, "OK", "text/plain")] ∧
       (λ ep, (ie_server ep, ie_uid ep, ie_properties ep !! PROP_IMPORTED,
               ie_properties ep !! PROP_IMPORTED_CONFIGS,
               ie_properties ep !! PROP_EXPORTED_CONFIGS,
               ie_properties ep !! PROP_FRAMEWORK_UID))
         <$> registered (events (m (fresh [] []) tt)) =
       [("10.0.0.7", JStr "ep-0", Some (JBool true), Some (JStr "xmlrpc"),
         None, Some (JStr "fw-1"))].
Proof.
  split; [by vm_compute|].
  eexists. split; [by vm_compute|]. by vm_compute.
Qed.

(** C3.  The export-to-import transform sets ["imported"] to true, copies
    the value of ["exported.configs"] to ["imported.configs"] when it is
    present, removes ["exported.configs"] and ["exported.interfaces"], and
    sets ["framework.uid"] to the sender.  Hence the wire record the
    servlet makes of an export endpoint is registered as one import
    endpoint: it has the UID, the name, the configurations and the
    specifications of the export endpoint, it is tagged with the host that
    sent it and with the sender as its framework, and its properties are
    the transform of the properties of the export endpoint: ["imported"]
    true, the value of the endpoint's ["exported.configs"], if any, as
    ["imported.configs"], neither of the two exported keys, the sender as
    ["framework.uid"], and every other property of the endpoint as it
    was. *)
Theorem ingest_transforms_properties fw (props : gmap string json)
    host fw_uid ep d w :
  let p := filter_properties fw props in
  let r := register_endpoint env host (_make_endpoint_dict fw_uid ep) d w in
  p !! PROP_IMPORTED = Some (JBool true) ∧
  (∀ v, props !! PROP_EXPORTED_CONFIGS = Some v →
        p !! PROP_IMPORTED_CONFIGS = Some v) ∧
  p !! PROP_EXPORTED_CONFIGS = None ∧
  p !! PROP_EXPORTED_INTERFACES = None ∧
  p !! PROP_FRAMEWORK_UID = Some fw ∧
  result r = Ok tt ∧
  ∃ imported,
    registered (events r) = [imported] ∧
    ie_server imported = host ∧
    ie_framework imported = sender_of fw_uid ∧
    ie_uid imported = JStr (uid ep) ∧
    ie_name imported = JStr (name ep) ∧
    ie_configurations imported = JArr (JStr <$> configurations ep) ∧
    ie_specifications imported = JArr (JStr <$> specifications ep) ∧
    ie_properties imported =
      filter_properties (sender_of fw_uid) (properties ep) ∧
    ie_properties imported !! PROP_IMPORTED = Some (JBool true) ∧
    (∀ v, properties ep !! PROP_EXPORTED_CONFIGS = Some v →
          ie_properties imported !! PROP_IMPORTED_CONFIGS = Some v) ∧
    ie_properties imported !! PROP_EXPORTED_CONFIGS = None ∧
    ie_properties imported !! PROP_EXPORTED_INTERFACES = None ∧
    ie_properties imported !! PROP_FRAMEWORK_UID = Some (sender_of fw_uid) ∧
    (∀ k, k ∉ [PROP_IMPORTED; PROP_IMPORTED_CONFIGS; PROP_EXPORTED_CONFIGS;
               PROP_EXPORTED_INTERFACES; PROP_FRAMEWORK_UID] →
          ie_properties imported !! k = properties ep !! k).
Proof.
  intros p r.
  destruct (filter_properties_lookup fw props) as (H1 & H2 & H3 & H4 & H5 & _).
  split_and!; try done.
  - intros v Hv. fold p in H2. by rewrite H2, Hv.
  - subst r. rewrite register_wire_record. eexists. split; [reflexivity|].
    cbn [ie_server ie_framework ie_properties ie_uid ie_name ie_configurations
         ie_specifications].
    destruct (filter_properties_lookup (sender_of fw_uid) (properties ep))
      as (G1 & G2 & G3 & G4 & G5 & G6).
    cbn zeta in G2. split_and!; try done.
    intros v Hv. by rewrite G2, Hv.
Qed.

(** C7, as amended.  A POST to the [endpoints] path whose body decodes to
    an empty value (an empty list, [null], ...) registers nothing and is
    answered 200 with the plain text ["OK"]; nothing is raised. *)
Theorem post_empty_content request v d w :
  List.last (split "/" (get_path request)) EmptyString = "endpoints" →
  json_loads (read_data request) = Some (Ok v) →
  truthy v = false →
  ∃ m, do_POST env request = Some m ∧
       m d w = Run (Ok tt) d w [SendContent 200 "OK" "text/plain"].
Proof.
  intros Hpath Hload Hv. unfold do_POST. rewrite Hpath, Hload. simpl.
  eexists. split; [reflexivity|].
  unfold lift. rewrite bind_ret. rewrite Hv.
  by erewrite bind_ok by reflexivity.
Qed.
End ServletClaims.

(** ** The indexing invariant *)

Lemma fresh_keyed exporters listeners : endpoints_keyed (fresh exporters listeners).
Proof. intros u ep H. simpl in H. by apply lookup_empty_Some in H. Qed.

Lemma export_keeps_keyed {W} (env : World W) ref d w :
  endpoints_keyed d → endpoints_keyed (after (__export_service env ref) d w).
Proof.
  intros Hk. unfold after.
  by destruct (export_structure env ref d w)
    as (? & ? & ? & _ & _ & _ & _ & _ & _ & _ & _ & _ & _ & _ & _ & H); apply H.
Qed.

Lemma update_keeps_dispatcher {W} (env : World W) ref old d w :
  disp (__update_service env ref old d w) = d.
Proof.
  unfold __update_service. rewrite bind_get.
  destruct (__service_uids d !! sr_id ref) as [uids|]; [|done].
  generalize (elements uids) as us. intros us. revert w.
  induction us as [|u us IH]; intros w; [done|]. cbn [for_each].
  pose proof (update_uid_disp env ref old u d w) as Hd.
  destruct (update_uid env ref old u d w) as [[[]|e] d1 w1 tr1] eqn:E;
    fields in *; subst d1.
  - erewrite bind_ok by exact E. cbn [disp]. apply IH.
  - by erewrite bind_raise by exact E.
Qed.

(** An update of a record that lists a UID without endpoint or without
    exporter never returns normally. *)
Lemma update_stale_never_returns {W} (env : World W) ref old d w uids u :
  __service_uids d !! sr_id ref = Some uids →
  u ∈ uids →
  __uid_exporter d !! u = None ∨ __endpoints d !! u = None →
  result (__update_service env ref old d w) ≠ Ok tt.
Proof.
  intros Hrec Hu Hmiss. unfold __update_service. rewrite bind_get, Hrec.
  apply elem_of_elements in Hu. revert Hu.
  generalize (elements uids) as us. intros us. revert w.
  induction us as [|u' us IH]; intros w Hu; [by apply elem_of_nil in Hu|].
  cbn [for_each].
  pose proof (update_uid_disp env ref old u' d w) as Hd.
  destruct (decide (u' = u)) as [->|Hne].
  - pose proof (update_uid_missing env ref old u d w Hmiss) as E.
    rewrite Hrec in E. by erewrite bind_raise by exact E.
  - apply elem_of_cons in Hu as [->|Hu]; [done|].
    destruct (update_uid env ref old u' d w) as [[[]|e] d1 w1 tr1] eqn:E;
      fields in *; subst d1.
    + erewrite bind_ok by exact E. cbn [result]. by apply IH.
    + by erewrite bind_raise by exact E.
Qed.

(** [__unexport_service] calls every listener for every endpoint it
    removes, whatever the listeners raise. *)
Lemma unexport_uid_isolates {W} (env : World W) u ex ep d w :
  __endpoints d !! u = Some ep →
  __uid_exporter d !! u = Some ex →
  let r := unexport_uid env u d w in
  result r = Ok tt ∧
  notifications (events r) = broadcast (_listeners d) (endpoint_removed ep None).
Proof.
  intros Hep Hex. unfold unexport_uid. rewrite bind_get, Hep.
  rewrite bind_modify, Hex. rewrite bind_modify.
  erewrite bind_ok by reflexivity. fields.
  rewrite guarded_loop.
  match goal with |- context [for_each ?f ?ls ?d' ?w'] =>
    destruct (isolated_loop env (endpoint_removed ep None)
                "Error notifying listener: %s" ls d' w') as (Hres & _ & Hn & _)
  end.
  split; [done|]. change (?e :: ?t) with ([e] ++ t).
  by rewrite notifications_app, Hn.
Qed.

(** ** The claims at concrete inputs *)

(** C1.  Two exporters and the listeners 0 and 1 are bound, and listener 0
    raises.  The export pass creates two endpoints and calls listener 0
    once, with both endpoints in one [endpoints_added]; the exception of
    listener 0 then leaves the pass and listener 1 receives no call, so
    the batch is not broadcast although endpoints were created.  With
    listeners that do not raise the same pass delivers the batch to both
    listeners and returns. *)
Theorem export_batch_cut_short :
  let r := __export_service grumpy service_a (fresh [0; 1] [0; 1]) tt in
  let quiet := __export_service friendly service_a (fresh [0; 1] [0; 1]) tt in
  created (events r) = [sample_endpoint 0; sample_endpoint 1] ∧
  notifications (events r) =
    [(0, endpoints_added [sample_endpoint 0; sample_endpoint 1])] ∧
  notifications (events r) ≠
    broadcast [0; 1] (endpoints_added (created (events r))) ∧
  (1 ∉ (notifications (events r)).*1) ∧
  result r = Raise (OtherException "listener") ∧
  logged (events r) = [] ∧
  notifications (events quiet) =
    broadcast [0; 1] (endpoints_added [sample_endpoint 0; sample_endpoint 1]) ∧
  result quiet = Ok tt.
Proof.
  vm_compute. split_and!; try done.
  intros [?|?%elem_of_nil]%elem_of_cons; done.
Qed.

(** C2.  The listeners 0 and 1 are bound and listener 0 raises.  When the
    update of the endpoint fails with a naming error, the endpoint is
    unexported through its exporter and listener 0 is told
    [endpoint_removed], but its exception leaves the update and listener 1
    is never told: the removal is not broadcast.  When the update succeeds
    the same happens to [endpoint_updated].  With two endpoints on the
    record, only one of them is dealt with at all.  With listeners that do
    not raise, both listeners are told of the removal and the update
    returns. *)
Theorem update_broadcast_cut_short :
  let failed := __update_service grumpy_renaming service_a ∅ exported_a tt in
  let updated := __update_service grumpy service_a ∅ exported_a tt in
  let two := __update_service grumpy_renaming service_a ∅ exported_two tt in
  let quiet := __update_service renaming service_a ∅ exported_a tt in
  _listeners exported_a = [0; 1] ∧
  UpdateExport 0 (sample_endpoint 0) (GeneratedName (JInt 1)) ∅ UpdateNameError
    ∈ events failed ∧
  unexports (events failed) = [(0, sample_endpoint 0)] ∧
  notifications (events failed) =
    [(0, endpoint_removed (sample_endpoint 0) (Some ∅))] ∧
  notifications (events failed) ≠
    broadcast [0; 1] (endpoint_removed (sample_endpoint 0) (Some ∅)) ∧
  result failed = Raise (OtherException "listener") ∧
  UpdateExport 0 (sample_endpoint 0) (GeneratedName (JInt 1)) ∅ Updated
    ∈ events updated ∧
  notifications (events updated) =
    [(0, endpoint_updated (sample_endpoint 0) ∅)] ∧
  notifications (events updated) ≠
    broadcast [0; 1] (endpoint_updated (sample_endpoint 0) ∅) ∧
  result updated = Raise (OtherException "listener") ∧
  size (default ∅ (__service_uids exported_two !! sr_id service_a)) = 2 ∧
  List.length (unexports (events two)) = 1 ∧
  (notifications (events two)).*1 = [0] ∧
  notifications (events quiet) =
    broadcast [0; 1] (endpoint_removed (sample_endpoint 0) (Some ∅)) ∧
  result quiet = Ok tt.
Proof.
  vm_compute. split_and!; try done; left.
Qed.

(** C5.  Listeners 0 and 1 are bound and listener 0 raises.  In
    [__export_service] and in both branches of [__update_service] the
    exception leaves the method, nothing is logged about it, and listener 1
    is never called.  [__unexport_service] on the same dispatcher catches
    the exception, logs it and goes on to listener 1. *)
Theorem listener_failure_escapes :
  let exported := __export_service grumpy service_a (fresh [0] [0; 1]) tt in
  let updated := __update_service grumpy service_a ∅ exported_a tt in
  let renamed := __update_service grumpy_renaming service_a ∅ exported_a tt in
  let removed := __unexport_service grumpy service_a exported_a tt in
  _listeners exported_a = [0; 1] ∧
  created (events exported) = [sample_endpoint 0] ∧
  result exported = Raise (OtherException "listener") ∧
  notifications (events exported) = [(0, endpoints_added [sample_endpoint 0])] ∧
  logged (events exported) = [] ∧
  result updated = Raise (OtherException "listener") ∧
  notifications (events updated) = [(0, endpoint_updated (sample_endpoint 0) ∅)] ∧
  logged (events updated) = [] ∧
  result renamed = Raise (OtherException "listener") ∧
  notifications (events renamed) =
    [(0, endpoint_removed (sample_endpoint 0) (Some ∅))] ∧
  result removed = Ok tt ∧
  notifications (events removed) =
    [(0, endpoint_removed (sample_endpoint 0) None);
     (1, endpoint_removed (sample_endpoint 0) None)] ∧
  logged (events removed) = [(ERROR, "Error notifying listener: %s")].
Proof. vm_compute. repeat split. Qed.

(** C6.  The record of a service lists a UID whose endpoint is gone.  The
    update logs the warning, then raises [AttributeError] from the repair
    itself, and the UID is still on the record afterwards. *)
Theorem stale_uid_update_raises :
  let r := __update_service friendly service_b ∅ stale tt in
  __service_uids stale !! sr_id service_b = Some {["ep-0"]} ∧
  __endpoints stale !! "ep-0" = None ∧
  result r = Raise AttributeError ∧
  disp r = stale ∧
  events r = [Log WARNING "No exporter for endpoint %s"].
Proof. vm_compute. repeat split. Qed.

(** C7 as stated fails: with an empty body [json.loads] raises
    [ValueError], which leaves the handler before any answer is sent. *)
Lemma post_empty_body_escapes :
  ∃ m, do_POST friendly (post_request "") = Some m ∧
       m (fresh [] []) tt = Run (Raise ValueError) (fresh [] []) tt [].
Proof. eexists. split; [reflexivity|]. vm_compute. reflexivity. Qed.

(** C8 as stated fails: [exported.configs] is present as the empty string,
    which is not ["*"], and no exporter handles it; both exporters are
    asked all the same, and [handles] is not called. *)
Lemma blank_configs_asks_everyone :
  let r := __export_service unwilling blank_service (fresh [0; 1] []) tt in
  get_properties blank_service !! PROP_EXPORTED_CONFIGS = Some (JStr "") ∧
  JStr "" ≠ JStr "*" ∧
  (∀ ex c, exporter_handles unwilling ex c tt = (false, tt)) ∧
  queried (events r) = [] ∧
  asked (events r) = [0; 1].
Proof. split_and!; try done. Qed.

(** ** Witnesses *)

Lemma exported_a_keyed : endpoints_keyed exported_a.
Proof. apply export_keeps_keyed, fresh_keyed. Qed.


Lemma export_asks_candidates_witness :
  truthy (get_property service_a PROP_EXPORTED_CONFIGS) = false ∧
  asked (events (__export_service friendly service_a (fresh [0; 1] []) tt)) = [0; 1] ∧
  queried (events (__export_service friendly xmlrpc_service (fresh [0; 1] []) tt)) =
    [(0, JStr "xmlrpc"); (1, JStr "xmlrpc")] ∧
  asked (events (__export_service friendly xmlrpc_service (fresh [0; 1] []) tt)) = [0] ∧
  created (events (__export_service friendly xmlrpc_service (fresh [0; 1] []) tt)) =
    [sample_endpoint 0].
Proof.
  destruct (export_asks_candidates friendly service_a (fresh [0; 1] []) tt)
    as (Habsent & Hall & _ & _).
  destruct (export_asks_candidates friendly xmlrpc_service (fresh [0; 1] []) tt)
    as (_ & _ & Hfilter & Htwo).
  split_and!.
  - apply Habsent. by vm_compute.
  - apply Hall. left. by vm_compute.
  - apply Hfilter; by vm_compute.
  - eapply (Htwo 0 1 (GeneratedName (JInt 7)) (Some "fw-1") (sample_endpoint 0));
      try (by vm_compute).
    vm_compute. do 2 right. left.
  - eapply (Htwo 0 1 (GeneratedName (JInt 7)) (Some "fw-1") (sample_endpoint 0));
      try (by vm_compute).
    vm_compute. do 2 right. left.
Defined.

Lemma export_records_reference_witness :
  __service_uids (after (__export_service friendly service_a) (fresh [] []) tt)
    !! sr_id service_a = Some ∅ ∧
  service_changed friendly
    {| get_kind := MODIFIED; get_service_reference := service_a;
       get_previous_properties := ∅ |}
    (after (__export_service friendly service_a) (fresh [] []) tt) tt =
  Run (Ok tt) (after (__export_service friendly service_a) (fresh [] []) tt) tt [].
Proof.
  destruct (export_records_reference friendly service_a (fresh [] []) tt)
    as (_ & Hempty & Hmod & Hnoop).
  assert (__service_uids (after (__export_service friendly service_a) (fresh [] []) tt)
            !! sr_id service_a = Some ∅) as H.
  { apply Hempty; by vm_compute. }
  split; [exact H|].
  unfold after. rewrite Hmod by done. by apply Hnoop.
Defined.

Lemma bind_listener_snapshot_witness :
  events (_bind_listener friendly 5 (fresh [0] []) tt) = [] ∧
  notifications (events (_bind_listener grumpy 0 exported_a tt)) =
    [(0, endpoints_added (endpoint_values exported_a))] ∧
  Log ERROR "Error notifying newly bound listener: %s"
    ∈ events (_bind_listener grumpy 0 exported_a tt).
Proof.
  destruct (bind_listener_snapshot friendly 5 (fresh [0] []) tt)
    as (_ & _ & Hempty & _).
  destruct (bind_listener_snapshot grumpy 0 exported_a tt)
    as (_ & _ & _ & _ & _ & Hfull).
  split; [by apply Hempty|].
  assert (__endpoints exported_a ≠ ∅) as Hne.
  { intros H. assert (__endpoints exported_a !! "ep-0" = None) as H'
      by (by rewrite H). by vm_compute in H'. }
  destruct (Hfull Hne) as [Hn Hlog]. split; [exact Hn|].
  apply Hlog. by vm_compute.
Defined.


Lemma ingest_transforms_properties_witness :
  filter_properties (JStr "fw-1") (properties (sample_endpoint 0))
    !! PROP_IMPORTED_CONFIGS = Some (JStr "xmlrpc") ∧
  ∃ imported,
    registered (events (register_endpoint friendly "10.0.0.7"
                          (_make_endpoint_dict (Some "fw-1") (sample_endpoint 0))
                          (fresh [] []) tt)) = [imported] ∧
    ie_uid imported = JStr "ep-0" ∧
    ie_properties imported !! PROP_IMPORTED_CONFIGS = Some (JStr "xmlrpc").
Proof.
  destruct (ingest_transforms_properties friendly (JStr "fw-1")
              (properties (sample_endpoint 0)) "10.0.0.7" (Some "fw-1")
              (sample_endpoint 0) (fresh [] []) tt)
    as (_ & H & _ & _ & _ & _ & imported & Hreg & _ & _ & Huid & _ & _ & _ & _
        & _ & Hcopy & _).
  split; [apply H; by vm_compute|].
  exists imported. split_and!; [exact Hreg|exact Huid|].
  apply Hcopy. by vm_compute.
Defined.

Lemma post_empty_content_witness :
  ∃ m, do_POST friendly (post_request "[]") = Some m ∧
       m (fresh [] []) tt =
       Run (Ok tt) (fresh [] []) tt [SendContent 200 "OK" "text/plain"].
Proof.
  apply (post_empty_content friendly (post_request "[]") (JArr [])); by vm_compute.
Defined.

(** * More of the dispatcher and of the servlet *)

(** ** What an export pass files *)

Lemma created_by_app tr1 tr2 :
  created_by (tr1 ++ tr2) = created_by tr1 ++ created_by tr2.
Proof. unfold created_by, export_answers. by rewrite !omap_app. Qed.

Lemma created_by_created tr : (created_by tr).*2 = created tr.
Proof.
  unfold created_by, created. induction (export_answers tr) as [|[ex a] l IH]; [done|].
  destruct a; csimpl; [f_equal|..]; apply IH.
Qed.

Lemma filed_app ref made1 made2 d :
  filed ref (made1 ++ made2) d = filed ref made2 (filed ref made1 d).
Proof. unfold filed. by rewrite foldl_app. Qed.

Lemma filed_fields ref made d :
  _exporters (filed ref made d) = _exporters d ∧
  _listeners (filed ref made d) = _listeners d ∧
  _fw_uid (filed ref made d) = _fw_uid d ∧
  __validated (filed ref made d) = __validated d.
Proof.
  revert d. induction made as [|p made IH]; intros d; [done|].
  apply (IH (stored ref p.1 p.2 d)).
Qed.

Lemma filed_endpoints ref made d u :
  __endpoints (filed ref made d) !! u =
  match list_find (λ p, uid p.2 = u) (reverse made) with
  | Some (_, p) => Some p.2
  | None => __endpoints d !! u
  end.
Proof.
  induction made as [|p made IH] using rev_ind; [done|].
  rewrite filed_app, reverse_app. simpl.
  destruct (decide (uid p.2 = u)) as [<-|Hne]; simpl.
  - by rewrite lookup_insert_eq.
  - rewrite lookup_insert_ne by done.
    rewrite IH. by destruct (list_find _ (reverse made)) as [[]|].
Qed.

Lemma filed_uid_exporter ref made d u :
  __uid_exporter (filed ref made d) !! u =
  match list_find (λ p, uid p.2 = u) (reverse made) with
  | Some (_, p) => Some p.1
  | None => __uid_exporter d !! u
  end.
Proof.
  induction made as [|p made IH] using rev_ind; [done|].
  rewrite filed_app, reverse_app. simpl.
  destruct (decide (uid p.2 = u)) as [<-|Hne]; simpl.
  - by rewrite lookup_insert_eq.
  - rewrite lookup_insert_ne by done.
    rewrite IH. by destruct (list_find _ (reverse made)) as [[]|].
Qed.

Lemma filed_service_uids ref made d id :
  __service_uids (filed ref made d) !! id =
  if decide (id = sr_id ref ∧ made ≠ [])
  then Some (list_to_set (uid <$> made.*2) ∪ default ∅ (__service_uids d !! sr_id ref))
  else __service_uids d !! id.
Proof.
  induction made as [|p made IH] using rev_ind.
  { rewrite decide_False by (by intros [_ ?]). done. }
  rewrite filed_app. simpl.
  destruct (decide (id = sr_id ref)) as [->|Hne].
  - rewrite decide_True by (split; [done|by destruct made]).
    rewrite lookup_insert_eq. rewrite IH. f_equal.
    rewrite !fmap_app, list_to_set_app_L. simpl.
    destruct (decide (made = [])) as [->|Hm].
    + rewrite decide_False by (by intros [_ ?]). simpl.
      by rewrite union_empty_l_L, union_empty_r_L.
    + rewrite decide_True by done. simpl.
      rewrite union_empty_r_L, (assoc_L (∪)). f_equal. apply (comm_L (∪)).
  - rewrite decide_False by (by intros [? _]).
    rewrite lookup_insert_ne by done. rewrite IH.
    by rewrite decide_False by (by intros [? _]).
Qed.

Section Filing.
Context {W : Type} (env : World W).

Lemma export_loop_filed ref nm exs d w :
  disp (export_loop env ref nm exs d w) =
  filed ref (created_by (events (export_loop env ref nm exs d w))) d.
Proof.
  revert d w. induction exs as [|ex exs IH]; intros d w; cbn [export_loop]; [done|].
  destruct (export_with_run env ref nm ex d w) as (a & w' & Hc).
  erewrite bind_ok by exact Hc. fields.
  set (d1 := match a with Exported ep => stored ref ex ep d | _ => d end) in *.
  specialize (IH d1 w').
  destruct (export_loop env ref nm exs d1 w') as [res' d' w'' tr'] eqn:E.
  fields in *. subst d'.
  destruct (export_loop_spec env ref nm exs d1 w') as (Hres & _).
  rewrite E in Hres. fields in *. subst res'.
  erewrite bind_ok by exact E. cbn [result disp world events ret].
  rewrite app_nil_r, created_by_app, filed_app. f_equal.
  subst d1. by destruct a.
Qed.

Lemma listeners_created_by n tr : Forall (is_notify n) tr → created_by tr = [].
Proof.
  intros H. unfold created_by.
  by destruct (notify_projections _ _ H) as (-> & _).
Qed.

Lemma handles_created_by tr : Forall is_handles tr → created_by tr = [].
Proof.
  intros H. unfold created_by.
  by destruct (handles_projections _ H) as (-> & _).
Qed.

(** The dispatcher after an export pass: the record of the service is
    there, and the endpoints the exporters returned are filed in the order
    they were returned. *)
Lemma export_disp ref d w :
  disp (__export_service env ref d w) =
  filed ref (created_by (events (__export_service env ref d w))) (recorded ref d).
Proof.
  unfold __export_service.
  rewrite bind_modify. fold (recorded ref d). rewrite bind_get.
  change (_exporters (recorded ref d)) with (_exporters d).
  destruct (_exporters d) as [|ex0 exs0] eqn:Hexs; [done|].
  set (configs := get_property ref PROP_EXPORTED_CONFIGS).
  assert (∃ trh cands w1,
    (if negb (truthy configs) || is_star configs
     then ret (ex0 :: exs0)
     else filter_list (λ ex, call_handles env ex configs) (ex0 :: exs0))
      (recorded ref d) w = Run (Ok cands) (recorded ref d) w1 trh ∧
    Forall is_handles trh) as (trh & cands & w1 & Hsel & Hh).
  { destruct (negb (truthy configs) || is_star configs).
    - by exists [], (ex0 :: exs0), w.
    - destruct (filter_handles env configs (ex0 :: exs0) (recorded ref d) w)
        as (Hd & Hres & Hq & Hall).
      destruct (filter_list _ (ex0 :: exs0) (recorded ref d) w)
        as [res' d' w' tr'] eqn:E.
      fields in *. subst. by exists tr', (accepted tr'), w'. }
  erewrite bind_ok by exact Hsel. fields.
  pose proof (handles_created_by _ Hh) as Hnone.
  destruct cands as [|c0 cs].
  { cbn. by rewrite created_by_app, Hnone. }
  destruct (compute_name_total ref) as [nm Hnm]. rewrite Hnm.
  unfold lift. rewrite bind_ret.
  pose proof (export_loop_filed ref nm (c0 :: cs) (recorded ref d) w1) as Hfiled.
  destruct (export_loop_spec env ref nm (c0 :: cs) (recorded ref d) w1)
    as (Hres & _ & _ & Hls & _).
  destruct (export_loop env ref nm (c0 :: cs) (recorded ref d) w1)
    as [res2 d2 w2 tr2] eqn:E2.
  fields in *. subst res2.
  erewrite bind_ok by exact E2. fields.
  destruct (created tr2) as [|ep0 eps] eqn:Hcr.
  { cbn. rewrite !created_by_app, Hnone. cbn. by rewrite app_nil_r. }
  rewrite bind_get.
  set (n := endpoints_added (ep0 :: eps)).
  rewrite (guarded_loop (λ l, call_listener env l n)).
  destruct (listeners_loop env n (_listeners d2) d2 w2) as (Hd3 & Hn3 & _).
  rewrite Hd3, !created_by_app, Hnone, (listeners_created_by _ _ Hn3).
  cbn. by rewrite app_nil_r.
Qed.
End Filing.

Lemma fmap_unique {A B} (f : A → B) (l : list A) x y :
  NoDup (f <$> l) → x ∈ l → y ∈ l → f x = f y → x = y.
Proof.
  induction l as [|z l IH]; intros Hnd Hx Hy Hf; [by apply elem_of_nil in Hx|].
  rewrite fmap_cons in Hnd. apply NoDup_cons in Hnd as [Hz Hnd].
  apply elem_of_cons in Hx as [->|Hx]; apply elem_of_cons in Hy as [->|Hy];
    try done.
  - destruct Hz. rewrite Hf. by apply list_elem_of_fmap_2.
  - destruct Hz. rewrite <- Hf. by apply list_elem_of_fmap_2.
  - by apply IH.
Qed.

(** The last endpoint filed under a UID, when UIDs are not repeated. *)
Lemma find_made (made : list (exporter * Endpoint)) ex ep :
  NoDup (uid <$> made.*2) → (ex, ep) ∈ made →
  ∃ i, list_find (λ p, uid p.2 = uid ep) (reverse made) = Some (i, (ex, ep)).
Proof.
  intros Hnd Hin.
  destruct (list_find (λ p, uid p.2 = uid ep) (reverse made)) as [[i p]|] eqn:E.
  - exists i. do 2 f_equal.
    apply list_find_Some in E as (Hi & Hp & _).
    apply list_elem_of_lookup_2 in Hi. rewrite elem_of_reverse in Hi.
    rewrite <- list_fmap_compose in Hnd.
    apply (fmap_unique (uid ∘ snd) made); [exact Hnd|exact Hi|exact Hin|exact Hp].
  - apply list_find_None in E. rewrite Forall_forall in E.
    destruct (E (ex, ep)); [by apply elem_of_reverse|done].
Qed.

Lemma find_not_made (made : list (exporter * Endpoint)) u :
  u ∉ uid <$> made.*2 →
  list_find (λ p, uid p.2 = u) (reverse made) = None.
Proof.
  intros Hu. apply list_find_None, Forall_forall. intros p Hp Hp'.
  rewrite elem_of_reverse in Hp. apply Hu. rewrite <- list_fmap_compose.
  rewrite <- Hp'. by apply (list_elem_of_fmap_2 (uid ∘ snd)).
Qed.

Lemma find_is_made (made : list (exporter * Endpoint)) u i p :
  list_find (λ p, uid p.2 = u) (reverse made) = Some (i, p) →
  p ∈ made ∧ uid p.2 = u.
Proof.
  intros (Hi & Hp & _)%list_find_Some. split; [|done].
  apply list_elem_of_lookup_2 in Hi. by rewrite elem_of_reverse in Hi.
Qed.

Section ExportIndex.
Context {W : Type} (env : World W).

Lemma export_index ref d w :
  let r := __export_service env ref d w in
  let made := created_by (events r) in
  let uids : gset string := list_to_set (uid <$> made.*2) in
  (NoDup (uid <$> made.*2) →
   ∀ ex ep, (ex, ep) ∈ made →
     get_endpoint (uid ep) (disp r) = Some ep ∧
     __uid_exporter (disp r) !! uid ep = Some ex) ∧
  (∀ u, u ∈ uids →
     ∃ ex ep, (ex, ep) ∈ made ∧ uid ep = u ∧
              get_endpoint u (disp r) = Some ep ∧
              __uid_exporter (disp r) !! u = Some ex) ∧
  (∀ u, u ∉ uids →
     get_endpoint u (disp r) = get_endpoint u d ∧
     __uid_exporter (disp r) !! u = __uid_exporter d !! u) ∧
  __service_uids (disp r) !! sr_id ref =
    Some (uids ∪ default ∅ (__service_uids d !! sr_id ref)) ∧
  (∀ id, id ≠ sr_id ref →
     __service_uids (disp r) !! id = __service_uids d !! id) ∧
  _exporters (disp r) = _exporters d ∧
  _listeners (disp r) = _listeners d ∧
  _fw_uid (disp r) = _fw_uid d ∧
  __validated (disp r) = __validated d.
Proof.
  intros r made uids. subst r. unfold get_endpoint.
  rewrite export_disp. fold made.
  destruct (filed_fields ref made (recorded ref d)) as (F1 & F2 & F3 & F4).
  split_and!; try done.
  - intros Hnd ex ep Hin. rewrite filed_endpoints, filed_uid_exporter.
    by destruct (find_made made ex ep Hnd Hin) as [i ->].
  - intros u Hu. rewrite filed_endpoints, filed_uid_exporter.
    destruct (list_find (λ p, uid p.2 = u) (reverse made)) as [[i [ex ep]]|] eqn:E.
    + destruct (find_is_made made u i (ex, ep) E) as [Hin Hu']. by exists ex, ep.
    + apply elem_of_list_to_set in Hu.
      apply list_find_None in E. rewrite Forall_forall in E.
      apply list_elem_of_fmap in Hu as (ep & -> & Hep).
      apply list_elem_of_fmap in Hep as ([ex ep'] & -> & Hin).
      destruct (E (ex, ep')); [by apply elem_of_reverse|done].
  - intros u Hu. rewrite filed_endpoints, filed_uid_exporter.
    rewrite find_not_made; [done|]. intros Hin. apply Hu.
    by apply elem_of_list_to_set.
  - rewrite filed_service_uids.
    assert (default ∅ (__service_uids (recorded ref d) !! sr_id ref) =
            default ∅ (__service_uids d !! sr_id ref)) as Hold.
    { unfold recorded. simpl. destruct (__service_uids d !! sr_id ref) eqn:E.
      - by rewrite E.
      - by rewrite lookup_insert_eq. }
    destruct (decide (made = [])) as [Hm|Hm].
    + rewrite decide_False by (by intros [_ ?]).
      subst uids. rewrite Hm. simpl. rewrite union_empty_l_L.
      unfold recorded. simpl. destruct (__service_uids d !! sr_id ref) eqn:E.
      * by rewrite E.
      * by rewrite lookup_insert_eq.
    + rewrite decide_True by done. by rewrite Hold.
  - intros id Hid. rewrite filed_service_uids.
    rewrite decide_False by (by intros [? _]).
    unfold recorded. simpl. destruct (__service_uids d !! sr_id ref); [done|].
    by rewrite lookup_insert_ne.
Qed.

(** X1.  What an export pass files.  When the exporters returned endpoints
    of distinct UIDs, each of them is afterwards the answer of
    [get_endpoint] for its UID, with the exporter that made it as its
    owner; in any case every UID returned in the pass resolves to an
    endpoint made in the pass.  The UIDs that were not returned keep their
    endpoint and their exporter.  The record of the service is its old
    record, empty if it had none, with the UIDs returned added; the records
    of the other services, the exporters, the listeners, the framework UID
    and the validation flag are as before.  This holds whether or not the
    pass returns. *)
Theorem export_files_endpoints ref d w :
  let r := __export_service env ref d w in
  let made := created_by (events r) in
  let uids : gset string := list_to_set (uid <$> made.*2) in
  (NoDup (uid <$> made.*2) →
   ∀ ex ep, (ex, ep) ∈ made →
     get_endpoint (uid ep) (disp r) = Some ep ∧
     __uid_exporter (disp r) !! uid ep = Some ex) ∧
  (∀ u, u ∈ uids →
     ∃ ex ep, (ex, ep) ∈ made ∧ uid ep = u ∧
              get_endpoint u (disp r) = Some ep ∧
              __uid_exporter (disp r) !! u = Some ex) ∧
  (∀ u, u ∉ uids →
     get_endpoint u (disp r) = get_endpoint u d ∧
     __uid_exporter (disp r) !! u = __uid_exporter d !! u) ∧
  __service_uids (disp r) !! sr_id ref =
    Some (uids ∪ default ∅ (__service_uids d !! sr_id ref)) ∧
  (∀ id, id ≠ sr_id ref →
     __service_uids (disp r) !! id = __service_uids d !! id) ∧
  _exporters (disp r) = _exporters d ∧
  _listeners (disp r) = _listeners d ∧
  _fw_uid (disp r) = _fw_uid d ∧
  __validated (disp r) = __validated d.
Proof. exact (export_index ref d w). Qed.
End ExportIndex.

(** ** What an unexport removes and whom it tells *)

Lemma unexports_app tr1 tr2 : unexports (tr1 ++ tr2) = unexports tr1 ++ unexports tr2.
Proof. apply omap_app. Qed.

Lemma omap_ext_in {A B} (f g : A → option B) (l : list A) :
  (∀ x, x ∈ l → f x = g x) → omap f l = omap g l.
Proof.
  induction l as [|x l IH]; intros H; [done|]. cbn.
  rewrite (H x) by left. rewrite IH; [done|]. intros y Hy. apply H. by right.
Qed.

Lemma fmap_ext_in {A B} (f g : A → B) (l : list A) :
  (∀ x, x ∈ l → f x = g x) → f <$> l = g <$> l.
Proof.
  induction l as [|x l IH]; intros H; [done|]. cbn.
  rewrite (H x) by left. rewrite IH; [done|]. intros y Hy. apply H. by right.
Qed.

Section UnexportIndex.
Context {W : Type} (env : World W).

Lemma unexport_uid_exact u d w :
  let r := unexport_uid env u d w in
  result r = Ok tt ∧
  __endpoints (disp r) = delete u (__endpoints d) ∧
  __uid_exporter (disp r) =
    (if __endpoints d !! u is Some _ then delete u (__uid_exporter d)
     else __uid_exporter d) ∧
  __service_uids (disp r) = __service_uids d ∧
  _exporters (disp r) = _exporters d ∧
  _listeners (disp r) = _listeners d ∧
  _fw_uid (disp r) = _fw_uid d ∧
  __validated (disp r) = __validated d ∧
  unexports (events r) = option_list (popped d u) ∧
  notifications (events r) =
    default [] (removals (_listeners d) <$> popped d u).
Proof.
  unfold unexport_uid, popped. rewrite bind_get.
  destruct (__endpoints d !! u) as [ep|] eqn:Hep.
  2:{ simpl. split_and!; try done. by rewrite delete_id. }
  rewrite bind_modify.
  destruct (__uid_exporter d !! u) as [ex|] eqn:Hex.
  2:{ simpl. split_and!; try done. by rewrite delete_id. }
  rewrite bind_modify.
  erewrite bind_ok by reflexivity. fields.
  rewrite guarded_loop.
  match goal with |- context [for_each ?f ?ls ?d' ?w'] =>
    destruct (isolated_loop env (endpoint_removed ep None)
                "Error notifying listener: %s" ls d' w') as (Hres & Hd & Hn & Hall);
    set (loop := for_each f ls d' w') in *
  end.
  rewrite Hres, Hd.
  assert (unexports (events loop) = []) as Hnone.
  { apply omap_none. eapply Forall_impl; [exact Hall|].
    by intros e [(? & ? & ->)|(? & ? & ->)]. }
  split_and!; try done;
    change (?e :: ?t) with ([e] ++ t);
    by rewrite ?unexports_app, ?notifications_app, ?Hnone, ?Hn.
Qed.

Lemma unexport_loop_exact us d w :
  NoDup us →
  let r := for_each (unexport_uid env) us d w in
  result r = Ok tt ∧
  (∀ u, __endpoints (disp r) !! u =
        if decide (u ∈ us) then None else __endpoints d !! u) ∧
  (∀ u, __uid_exporter (disp r) !! u =
        if decide (u ∈ us ∧ is_Some (__endpoints d !! u)) then None
        else __uid_exporter d !! u) ∧
  __service_uids (disp r) = __service_uids d ∧
  _exporters (disp r) = _exporters d ∧
  _listeners (disp r) = _listeners d ∧
  _fw_uid (disp r) = _fw_uid d ∧
  __validated (disp r) = __validated d ∧
  unexports (events r) = omap (popped d) us ∧
  notifications (events r) =
    mjoin ((λ u, default [] (removals (_listeners d) <$> popped d u)) <$> us).
Proof.
  revert d w. induction us as [|u us IH]; intros d w Hnd; cbn zeta; cbn [for_each].
  { split_and!; try done; intros u; by rewrite decide_False by set_solver. }
  apply NoDup_cons in Hnd as [Hu Hnd].
  destruct (unexport_uid_exact u d w)
    as (Hres & Hep & Hex & Hsu & F1 & F2 & F3 & F4 & Hun & Hno).
  destruct (unexport_uid env u d w) as [res1 d1 w1 tr1] eqn:E.
  fields in *. subst res1.
  erewrite bind_ok by exact E. fields.
  destruct (IH d1 w1 Hnd) as (Hres' & Hep' & Hex' & Hsu' & G1 & G2 & G3 & G4 & Hun' & Hno').
  assert (Hsame : ∀ u', u' ∈ us → popped d1 u' = popped d u').
  { intros u' Hin. unfold popped. rewrite Hep, Hex.
    assert (u ≠ u') by (by intros ->).
    rewrite lookup_delete_ne by done.
    destruct (__endpoints d !! u); by rewrite ?lookup_delete_ne. }
  split_and!; try congruence.
  - intros u'. rewrite Hep', Hep.
    destruct (decide (u' = u)) as [->|Hne].
    + rewrite (decide_True (P := u ∈ u :: us)) by left.
      case_decide; [done|]. apply lookup_delete_eq.
    + rewrite lookup_delete_ne by done.
      destruct (decide (u' ∈ us)) as [Hin|Hin].
      * by rewrite decide_True by (by right).
      * rewrite decide_False; [done|]. by intros [?|?]%elem_of_cons.
  - intros u'. rewrite Hex', Hep, Hex.
    destruct (decide (u' = u)) as [->|Hne].
    + rewrite lookup_delete_eq.
      rewrite (decide_False (P := u ∈ us ∧ _)) by (by intros [? _]).
      destruct (__endpoints d !! u) as [ep|] eqn:Hl.
      * rewrite decide_True by (split; [left|eauto]). apply lookup_delete_eq.
      * rewrite decide_False; [done|]. by intros [_ [? ?]].
    + rewrite lookup_delete_ne by done.
      assert ((if __endpoints d !! u is Some _ then delete u (__uid_exporter d)
               else __uid_exporter d) !! u' = __uid_exporter d !! u') as ->.
      { destruct (__endpoints d !! u); by rewrite ?lookup_delete_ne. }
      destruct (decide (u' ∈ us ∧ is_Some (__endpoints d !! u'))) as [[Hin Hs]|Hn].
      * by rewrite decide_True by (split; [by right|done]).
      * rewrite decide_False; [done|].
        intros [[?|?]%elem_of_cons ?]; [done|]. by apply Hn.
  - rewrite unexports_app, Hun, Hun', (omap_ext_in _ _ us Hsame).
    cbn [omap list_omap]. by destruct (popped d u).
  - rewrite notifications_app, Hno, Hno'. cbn [fmap list_fmap mjoin list_join].
    rewrite G2 (* listeners *) || idtac.
    f_equal. f_equal. apply fmap_ext_in. intros u' Hin.
    by rewrite (Hsame u' Hin), F2.
Qed.
End UnexportIndex.

Section UnexportTheorems.
Context {W : Type} (env : World W).

Lemma unexport_index ref uids d w :
  __service_uids d !! sr_id ref = Some uids →
  let r := __unexport_service env ref d w in
  result r = Ok tt ∧
  __service_uids (disp r) = delete (sr_id ref) (__service_uids d) ∧
  (∀ u, get_endpoint u (disp r) =
        if decide (u ∈ uids) then None else get_endpoint u d) ∧
  (∀ u, __uid_exporter (disp r) !! u =
        if decide (u ∈ uids ∧ is_Some (get_endpoint u d)) then None
        else __uid_exporter d !! u) ∧
  unexports (events r) = omap (popped d) (elements uids) ∧
  notifications (events r) =
    mjoin ((λ u, default [] (removals (_listeners d) <$> popped d u))
             <$> elements uids) ∧
  _exporters (disp r) = _exporters d ∧
  _listeners (disp r) = _listeners d ∧
  _fw_uid (disp r) = _fw_uid d ∧
  __validated (disp r) = __validated d.
Proof.
  intros Hrec. cbn zeta. unfold __unexport_service, get_endpoint.
  rewrite bind_get, Hrec, bind_modify.
  destruct (unexport_loop_exact env (elements uids)
              (set_service_uids (delete (sr_id ref)) d) w (NoDup_elements uids))
    as (Hres & Hep & Hex & Hsu & F1 & F2 & F3 & F4 & Hun & Hno).
  split_and!; try done.
  - intros u. rewrite Hep. simpl.
    destruct (decide (u ∈ uids)).
    + by rewrite decide_True by (by apply elem_of_elements).
    + by rewrite decide_False by (by rewrite elem_of_elements).
  - intros u. rewrite Hex. simpl.
    destruct (decide (u ∈ uids ∧ is_Some (__endpoints d !! u))) as [[? ?]|Hn].
    + by rewrite decide_True by (by rewrite elem_of_elements).
    + rewrite decide_False; [done|]. rewrite elem_of_elements. tauto.
Qed.

(** C4.  Unexporting a service twice is safe.  The first call returns and
    takes the record of the service away, leaving the other records.  For
    a service on record it removes the endpoint of every UID the record
    listed, and with it the exporter of that UID, and leaves every other
    UID its endpoint and its exporter; [unexport_service] is called on the
    exporter of each endpoint removed, once, with that endpoint, and every
    listener is told [endpoint_removed] once for each of them.  A second
    unexport, an update after it, and any unexport or update of a service
    without record return without error, leave the dispatcher and the
    collaborators as they were, and produce no event: no call, no
    notification. *)
Theorem unexport_twice ref d w :
  let r1 := __unexport_service env ref d w in
  result r1 = Ok tt ∧
  __service_uids (disp r1) !! sr_id ref = None ∧
  __service_uids (disp r1) = delete (sr_id ref) (__service_uids d) ∧
  (∀ uids u, __service_uids d !! sr_id ref = Some uids → u ∈ uids →
             __endpoints (disp r1) !! u = None) ∧
  (∀ uids, __service_uids d !! sr_id ref = Some uids →
     (∀ u, __endpoints (disp r1) !! u =
           if decide (u ∈ uids) then None else __endpoints d !! u) ∧
     (∀ u, __uid_exporter (disp r1) !! u =
           if decide (u ∈ uids ∧ is_Some (__endpoints d !! u)) then None
           else __uid_exporter d !! u) ∧
     unexports (events r1) = omap (popped d) (elements uids) ∧
     notifications (events r1) =
       mjoin ((λ u, default [] (removals (_listeners d) <$> popped d u))
                <$> elements uids)) ∧
  (∀ w', __unexport_service env ref (disp r1) w' = Run (Ok tt) (disp r1) w' []) ∧
  (∀ old w', __update_service env ref old (disp r1) w' = Run (Ok tt) (disp r1) w' []) ∧
  (∀ d0 w0 old,
     __service_uids d0 !! sr_id ref = None →
     __unexport_service env ref d0 w0 = Run (Ok tt) d0 w0 [] ∧
     __update_service env ref old d0 w0 = Run (Ok tt) d0 w0 []).
Proof.
  intros r1.
  assert (Hfirst : result r1 = Ok tt ∧
            __service_uids (disp r1) = delete (sr_id ref) (__service_uids d)).
  { destruct (__service_uids d !! sr_id ref) as [uids|] eqn:Hrec.
    - by destruct (unexport_index ref uids d w Hrec) as (? & ? & _).
    - subst r1. rewrite unexport_without_record by done. fields.
      split; [done|]. by rewrite delete_id. }
  destruct Hfirst as [Hres Hsu].
  assert (Hnone : __service_uids (disp r1) !! sr_id ref = None)
    by (rewrite Hsu; apply lookup_delete_eq).
  split_and!; try done.
  - intros uids u Hrec Hu.
    destruct (unexport_index ref uids d w Hrec) as (_ & _ & Hep & _).
    unfold get_endpoint in Hep. fold r1 in Hep. rewrite Hep.
    by rewrite decide_True.
  - intros uids Hrec.
    destruct (unexport_index ref uids d w Hrec)
      as (_ & _ & Hep & Hex & Hun & Hno & _).
    unfold get_endpoint in Hep, Hex. by split_and!.
  - intros w'. by apply unexport_without_record.
  - intros old w'. by apply update_without_record.
  - intros d0 w0 old H0. split;
      [by apply unexport_without_record|by apply update_without_record].
Qed.


(** X3.  An update pass never changes the dispatcher: the index after the
    pass is the index before it, whatever the exporters and the listeners
    answer.  In particular, when endpoints are filed under their own UID,
    an endpoint whose update failed with a naming error has been unexported
    by its exporter, and yet [get_endpoint] still returns it, it still has
    its exporter and its UID is still on the record of the service. *)
Theorem update_changes_nothing ref old d w :
  let r := __update_service env ref old d w in
  disp r = d ∧
  (endpoints_keyed d →
   ∀ ex ep nm,
     UpdateExport ex ep nm old UpdateNameError ∈ events r →
     UnexportService ex ep ∈ events r ∧
     get_endpoint (uid ep) (disp r) = Some ep ∧
     __uid_exporter (disp r) !! uid ep = Some ex ∧
     ∃ uids, __service_uids (disp r) !! sr_id ref = Some uids ∧ uid ep ∈ uids).
Proof.
  cbn zeta. pose proof (update_keeps_dispatcher env ref old d w) as Hd.
  split; [done|]. intros Hk ex ep nm Hin. rewrite Hd.
  destruct (update_about env ref old d w ex ep nm _ Hk Hin)
    as (Hex & Hep & Hun & _).
  split_and!; try done.
  - assert ((ex, ep) ∈ unexports_about (uid ep)
              (events (__update_service env ref old d w))) as H
      by (rewrite Hun; left).
    unfold unexports_about, events_about in H.
    apply list_elem_of_omap in H as (e & He & Hx).
    apply list_elem_of_In, List.filter_In in He as [He _].
    apply list_elem_of_In in He.
    destruct e; try done. by injection Hx as -> ->.
  - unfold __update_service in Hin. rewrite bind_get in Hin.
    destruct (__service_uids d !! sr_id ref) as [uids|] eqn:Hrec;
      [|by apply elem_of_nil in Hin].
    exists uids. split; [done|].
    destruct (decide (uid ep ∈ uids)) as [|Hn]; [done|].
    assert (UpdateExport ex ep nm old UpdateNameError ∈ events_about (uid ep)
              (events (for_each (update_uid env ref old) (elements uids) d w))) as H.
    { unfold events_about. apply list_elem_of_In, List.filter_In.
      split; [by apply list_elem_of_In|]. simpl. apply String.eqb_refl. }
    rewrite update_loop_other in H; [by apply elem_of_nil in H|done|].
    by rewrite elem_of_elements.
Qed.
End UnexportTheorems.

(** ** The index stays consistent *)

Lemma init_consistent : index_consistent Dispatcher_init.
Proof.
  split; simpl.
  - intros u ep H. simpl in H. by apply lookup_empty_Some in H.
  - done.
  - intros id uids u H. simpl in H. by apply lookup_empty_Some in H.
  - intros u [ep H]. simpl in H. by apply lookup_empty_Some in H.
  - intros id1 id2 uids1 uids2 u H. simpl in H. by apply lookup_empty_Some in H.
Qed.

Section Consistency.
Context {W : Type} (env : World W).

Lemma export_keeps_consistent ref d w :
  index_consistent d →
  let r := __export_service env ref d w in
  (∀ ex ep id uids,
     (ex, ep) ∈ created_by (events r) →
     __service_uids d !! id = Some uids → uid ep ∈ uids → id = sr_id ref) →
  index_consistent (disp r).
Proof.
  intros [Hk Hdom Hrec Hown Hdis] r Hnew.
  destruct (export_index env ref d w)
    as (_ & Hmade & Hother & Hmine & Hrest & _).
  fold r in Hmade, Hother, Hmine, Hrest.
  set (made := created_by (events r)) in *.
  set (S := list_to_set (uid <$> made.*2) : gset string) in *.
  unfold get_endpoint in *.
  assert (Hboth : ∀ u, is_Some (__endpoints (disp r) !! u) ↔
                       is_Some (__uid_exporter (disp r) !! u)).
  { intros u. destruct (decide (u ∈ S)) as [Hu|Hu].
    - destruct (Hmade u Hu) as (ex & ep & _ & _ & -> & ->). split; eauto.
    - destruct (Hother u Hu) as [-> ->].
      by rewrite <- !elem_of_dom, Hdom. }
  assert (Hgrow : ∀ u, is_Some (__endpoints d !! u) →
                       is_Some (__endpoints (disp r) !! u)).
  { intros u Hu. destruct (decide (u ∈ S)) as [HS|HS].
    - destruct (Hmade u HS) as (ex & ep & _ & _ & -> & _). eauto.
    - by destruct (Hother u HS) as [-> _]. }
  split.
  - by apply (export_keeps_keyed env ref d w).
  - apply set_eq. intros u. rewrite !elem_of_dom. apply Hboth.
  - intros id uids u Hid Hu.
    destruct (decide (id = sr_id ref)) as [->|Hne].
    + rewrite Hmine in Hid. injection Hid as <-.
      apply elem_of_union in Hu as [Hu|Hu].
      * destruct (Hmade u Hu) as (ex & ep & _ & _ & -> & _). eauto.
      * destruct (__service_uids d !! sr_id ref) as [old|] eqn:Hold;
          [|by apply elem_of_empty in Hu].
        apply Hgrow. by apply (Hrec (sr_id ref) old).
    + rewrite (Hrest id Hne) in Hid. apply Hgrow. by apply (Hrec id uids).
  - intros u Hu. destruct (decide (u ∈ S)) as [HS|HS].
    + eexists _, _. split; [exact Hmine|]. by apply elem_of_union_l.
    + destruct (Hother u HS) as [Heq _]. rewrite Heq in Hu.
      destruct (Hown u Hu) as (id & uids & Hid & Hin).
      destruct (decide (id = sr_id ref)) as [->|Hne].
      * eexists _, _. split; [exact Hmine|]. rewrite Hid. by apply elem_of_union_r.
      * exists id, uids. by rewrite (Hrest id Hne).
  - assert (Hcross : ∀ id uids u,
      id ≠ sr_id ref → __service_uids d !! id = Some uids → u ∈ uids →
      u ∈ S ∪ default ∅ (__service_uids d !! sr_id ref) → False).
    { intros id uids u Hne Hid Hu [HS|Hold]%elem_of_union.
      - destruct (Hmade u HS) as (ex & ep & Hin & <- & _).
        by apply Hne, (Hnew ex ep id uids).
      - destruct (__service_uids d !! sr_id ref) as [old|] eqn:Ho;
          [|by apply elem_of_empty in Hold].
        by apply Hne, (Hdis id (sr_id ref) uids old u). }
    intros id1 id2 uids1 uids2 u H1 H2 Hu1 Hu2.
    destruct (decide (id1 = sr_id ref)) as [->|Hne1];
      destruct (decide (id2 = sr_id ref)) as [->|Hne2]; try done.
    + rewrite Hmine in H1. injection H1 as <-.
      rewrite (Hrest id2 Hne2) in H2. by destruct (Hcross id2 uids2 u).
    + rewrite Hmine in H2. injection H2 as <-.
      rewrite (Hrest id1 Hne1) in H1. by destruct (Hcross id1 uids1 u).
    + rewrite (Hrest id1 Hne1) in H1. rewrite (Hrest id2 Hne2) in H2.
      by apply (Hdis id1 id2 uids1 uids2 u).
Qed.

Lemma unexport_keeps_consistent ref d w :
  index_consistent d →
  index_consistent (disp (__unexport_service env ref d w)).
Proof.
  intros [Hk Hdom Hrec Hown Hdis].
  destruct (__service_uids d !! sr_id ref) as [uids|] eqn:Hmine.
  2:{ by rewrite unexport_without_record. }
  destruct (unexport_index env ref uids d w Hmine)
    as (_ & Hsu & Hep & Hex & _).
  set (r := __unexport_service env ref d w) in *.
  unfold get_endpoint in *.
  split.
  - intros u ep Hu. rewrite Hep in Hu. case_decide; [done|]. by apply Hk.
  - apply set_eq. intros u. rewrite !elem_of_dom, Hep, Hex.
    destruct (decide (u ∈ uids)) as [Hu|Hu].
    + destruct (Hrec _ _ _ Hmine Hu) as [ep Hl].
      rewrite decide_True by (split; [done|eauto]).
      split; by intros [? ?].
    + rewrite decide_False by (by intros [? _]).
      by rewrite <- !elem_of_dom, Hdom.
  - intros id uids' u Hid Hu. rewrite Hsu in Hid.
    apply lookup_delete_Some in Hid as [Hne Hid].
    rewrite Hep. rewrite decide_False; [by apply (Hrec id uids')|].
    intros Hin. by apply Hne, eq_sym, (Hdis id (sr_id ref) uids' uids u).
  - intros u Hu. rewrite Hep in Hu. case_decide as Hin; [by destruct Hu|].
    destruct (Hown u Hu) as (id & uids' & Hid & Hu').
    exists id, uids'. split; [|done]. rewrite Hsu.
    apply lookup_delete_Some. split; [|done]. intros <-. congruence.
  - intros id1 id2 uids1 uids2 u H1 H2. rewrite Hsu in H1, H2.
    apply lookup_delete_Some in H1 as [_ H1].
    apply lookup_delete_Some in H2 as [_ H2].
    by apply Hdis.
Qed.

(** X4.  The index of a new dispatcher is consistent, and every service
    event keeps it so: endpoints are filed under their own UID, the UIDs
    with an endpoint are the UIDs with an exporter, every UID on a record
    has an endpoint, every endpoint is on a record, and no UID is on the
    records of two services.  The condition on the exporters is that an
    endpoint created for the service of the event has a UID that is on the
    record of no other service. *)
Theorem service_events_keep_consistent ev d w :
  index_consistent Dispatcher_init ∧
  (index_consistent d →
   let r := service_changed env ev d w in
   (∀ ex ep id uids,
      (ex, ep) ∈ created_by (events r) →
      __service_uids d !! id = Some uids → uid ep ∈ uids →
      id = sr_id (get_service_reference ev)) →
   index_consistent (disp r)).
Proof.
  split; [apply init_consistent|].
  intros Hc. cbn zeta. unfold service_changed. rewrite bind_get.
  destruct (get_kind ev).
  - by apply export_keeps_consistent.
  - destruct (__service_uids d !! sr_id (get_service_reference ev)).
    + intros _. by rewrite update_keeps_dispatcher.
    + by apply export_keeps_consistent.
  - intros _.
    destruct (__service_uids d !! sr_id (get_service_reference ev));
      [by apply unexport_keeps_consistent|done].
  - intros _.
    destruct (__service_uids d !! sr_id (get_service_reference ev));
      [by apply unexport_keeps_consistent|done].
Qed.
End Consistency.

(** ** Export and unexport compose; queries *)

Lemma dispatcher_eq (d1 d2 : Dispatcher) :
  _exporters d1 = _exporters d2 → _listeners d1 = _listeners d2 →
  _fw_uid d1 = _fw_uid d2 → __endpoints d1 = __endpoints d2 →
  __uid_exporter d1 = __uid_exporter d2 →
  __service_uids d1 = __service_uids d2 → __validated d1 = __validated d2 →
  d1 = d2.
Proof. destruct d1, d2; simpl; by intros -> -> -> -> -> -> ->. Qed.

Section Composition.
Context {W : Type} (env : World W).

Lemma export_then_unexport ref d w w' :
  __service_uids d !! sr_id ref = None →
  let r1 := __export_service env ref d w in
  (∀ ex ep, (ex, ep) ∈ created_by (events r1) →
            get_endpoint (uid ep) d = None ∧ __uid_exporter d !! uid ep = None) →
  let r2 := __unexport_service env ref (disp r1) w' in
  result r2 = Ok tt ∧ disp r2 = d ∧
  (NoDup (uid <$> (created_by (events r1)).*2) →
   unexports (events r2) ≡ₚ created_by (events r1)).
Proof.
  intros Hnone r1 Hnew r2.
  destruct (export_index env ref d w)
    as (Hnd & Hmade & Hother & Hmine & Hrest & E1 & E2 & E3 & E4).
  fold r1 in Hnd, Hmade, Hother, Hmine, Hrest, E1, E2, E3, E4.
  set (made := created_by (events r1)) in *.
  set (S := list_to_set (uid <$> made.*2) : gset string) in *.
  rewrite Hnone in Hmine. simpl in Hmine.
  destruct (unexport_index env ref _ (disp r1) w' Hmine)
    as (Hres & Hsu & Hep & Hex & Hun & _ & U1 & U2 & U3 & U4).
  fold r2 in Hres, Hsu, Hep, Hex, Hun, U1, U2, U3, U4.
  split; [done|]. unfold get_endpoint in *. split.
  - apply dispatcher_eq; try congruence.
    + apply map_eq. intros u. rewrite Hep.
      destruct (decide (u ∈ S ∪ ∅)) as [[Hu|Hu]%elem_of_union|Hu].
      * destruct (Hmade u Hu) as (ex & ep & Hin & <- & _).
        by destruct (Hnew ex ep Hin) as [-> _].
      * by apply elem_of_empty in Hu.
      * apply not_elem_of_union in Hu as [Hu _]. by destruct (Hother u Hu).
    + apply map_eq. intros u. rewrite Hex.
      destruct (decide (u ∈ S)) as [Hu|Hu].
      * destruct (Hmade u Hu) as (ex & ep & Hin & <- & Hl & _).
        rewrite decide_True by (split; [by apply elem_of_union_l|by rewrite Hl]).
        by destruct (Hnew ex ep Hin) as [_ ->].
      * rewrite decide_False; [by destruct (Hother u Hu)|].
        intros [[?|?%elem_of_empty]%elem_of_union _]; done.
    + apply map_eq. intros id. rewrite Hsu.
      destruct (decide (id = sr_id ref)) as [->|Hne].
      * by rewrite lookup_delete_eq.
      * rewrite lookup_delete_ne by done. by apply Hrest.
  - intros Hdup. rewrite Hun, union_empty_r_L. subst S.
    rewrite (elements_list_to_set _ Hdup).
    specialize (Hnd Hdup).
    assert (Hpop : ∀ p, p ∈ made → popped (disp r1) (uid p.2) = Some p).
    { intros [ex ep] Hin. destruct (Hnd ex ep Hin) as [Hl Hx].
      unfold popped. cbn [fst snd]. by rewrite Hl, Hx. }
    clear -Hpop. rewrite <- list_fmap_compose.
    induction made as [|p made IH]; [done|]. cbn.
    rewrite (Hpop p) by left. rewrite IH; [done|].
    intros q Hq. apply Hpop. by right.
Qed.

(** X5.  Registering a service and then unregistering it leaves the
    dispatcher as it was.  The first event is [REGISTERED] or [MODIFIED],
    the second [UNREGISTERING] or [MODIFIED_ENDMATCH], for the same
    service; the service is not on record before, and the endpoints the
    exporters create have UIDs the index does not know yet.  Then the
    second event returns and the dispatcher is equal to the one before the
    first; when the UIDs created are distinct, the endpoints unexported by
    the second event are those created by the first, each once, each by
    the exporter that made it. *)
Theorem register_then_unregister_restores ev1 ev2 d w w' :
  get_service_reference ev2 = get_service_reference ev1 →
  get_kind ev1 ∈ [REGISTERED; MODIFIED] →
  get_kind ev2 ∈ [UNREGISTERING; MODIFIED_ENDMATCH] →
  __service_uids d !! sr_id (get_service_reference ev1) = None →
  let r1 := service_changed env ev1 d w in
  (∀ ex ep, (ex, ep) ∈ created_by (events r1) →
            get_endpoint (uid ep) d = None ∧ __uid_exporter d !! uid ep = None) →
  let r2 := service_changed env ev2 (disp r1) w' in
  result r2 = Ok tt ∧ disp r2 = d ∧
  (NoDup (uid <$> (created_by (events r1)).*2) →
   unexports (events r2) ≡ₚ created_by (events r1)).
Proof.
  intros Href Hk1 Hk2 Hnone. cbn zeta.
  assert (service_changed env ev1 d w =
          __export_service env (get_service_reference ev1) d w) as ->.
  { unfold service_changed. rewrite bind_get.
    rewrite !elem_of_cons in Hk1. destruct Hk1 as [->|[->|[]%elem_of_nil]];
      [done|by rewrite Hnone]. }
  set (r1 := __export_service env (get_service_reference ev1) d w).
  assert (service_changed env ev2 (disp r1) w' =
          __unexport_service env (get_service_reference ev1) (disp r1) w') as ->.
  { unfold service_changed. rewrite bind_get, Href.
    destruct (export_index env (get_service_reference ev1) d w)
      as (_ & _ & _ & Hmine & _).
    fold r1 in Hmine.
    rewrite !elem_of_cons in Hk2. destruct Hk2 as [->|[->|[]%elem_of_nil]];
      by rewrite Hmine. }
  by apply export_then_unexport.
Qed.
End Composition.

(** X6.  [get_endpoints] answers exactly the endpoints of the index that
    pass the filters given: an endpoint is in the answer if and only if
    [get_endpoint] returns it for some UID, its name is the name asked for
    when one is given, and the kind asked for is among its configurations
    when one is given.  An empty text is no filter, as [None]; without
    filters the answer has one endpoint for every UID of the index. *)
Theorem get_endpoints_filters kind nm d ep :
  (ep ∈ get_endpoints kind nm d ↔
   (∃ u, get_endpoint u d = Some ep) ∧
   (∀ n, given nm = Some n → name ep = n) ∧
   (∀ k, given kind = Some k → k ∈ configurations ep)) ∧
  get_endpoints (Some EmptyString) (Some EmptyString) d = get_endpoints None None d ∧
  List.length (get_endpoints None None d) = size (__endpoints d).
Proof.
  assert (Hall : ∀ ep, ep ∈ endpoint_values d ↔ ∃ u, get_endpoint u d = Some ep).
  { intros ep'. unfold endpoint_values, get_endpoint.
    rewrite list_elem_of_fmap. split.
    - intros ([u ep''] & -> & Hin). exists u. by apply elem_of_map_to_list.
    - intros (u & Hu). exists (u, ep'). split; [done|]. by apply elem_of_map_to_list. }
  split_and!; [|done|].
  - unfold get_endpoints. cbn zeta.
    destruct (given kind) as [k|]; destruct (given nm) as [n|];
      rewrite ?list_elem_of_In, ?List.filter_In, <- ?list_elem_of_In, ?Hall,
        ?String.eqb_eq, ?bool_decide_eq_true.
    + split.
      * intros [[? ?] ?]. split_and!; [done|by intros ? [= <-]|by intros ? [= <-]].
      * intros (? & Hn & Hk). split_and!; [done|by apply Hn|by apply Hk].
    + split.
      * intros [? ?]. split_and!; [done|done|by intros ? [= <-]].
      * intros (? & Hn & Hk). split; [done|by apply Hk].
    + split.
      * intros [? ?]. split_and!; [done|by intros ? [= <-]|done].
      * intros (? & Hn & Hk). split; [done|by apply Hn].
    + split; [by intros ?|by intros (? & _)].
  - unfold get_endpoints, endpoint_values. simpl.
    by rewrite length_fmap, length_map_to_list.
Qed.

(** ** Validation *)

Section LifecycleProperties.
Context {W : Type} (env : World W).

Lemma export_loop_calls ref nm exs d w :
  Forall (λ e, ∀ ex ref' nm' fw a,
            e = ExportService ex ref' nm' fw a → fw = _fw_uid d ∧ ref' = ref)
    (events (export_loop env ref nm exs d w)).
Proof.
  revert d w. induction exs as [|ex exs IH]; intros d w; cbn [export_loop];
    [by constructor|].
  destruct (export_with_run env ref nm ex d w) as (a & w' & Hc).
  erewrite bind_ok by exact Hc. fields.
  set (d1 := match a with Exported ep => stored ref ex ep d | _ => d end) in *.
  specialize (IH d1 w').
  assert (_fw_uid d1 = _fw_uid d) as Hfw by (subst d1; by destruct a).
  rewrite Hfw in IH.
  destruct (export_loop env ref nm exs d1 w') as [res' d' w'' tr'] eqn:E.
  destruct (export_loop_spec env ref nm exs d1 w') as (Hres & _).
  rewrite E in Hres. fields in *. subst res'.
  erewrite bind_ok by exact E. cbn [result disp world events ret].
  rewrite app_nil_r. constructor.
  { by intros ? ? ? ? ? [= _ <- _ <- _]. }
  apply Forall_app. split; [|done].
  destruct a; repeat constructor; by intros.
Qed.

Lemma export_calls ref d w ex ref' nm fw a :
  ExportService ex ref' nm fw a ∈ events (__export_service env ref d w) →
  fw = _fw_uid d ∧ ref' = ref.
Proof.
  unfold __export_service.
  rewrite bind_modify. fold (recorded ref d). rewrite bind_get.
  change (_exporters (recorded ref d)) with (_exporters d).
  destruct (_exporters d) as [|ex0 exs0] eqn:Hexs.
  { simpl. by intros [?|?%elem_of_nil]%elem_of_cons. }
  set (configs := get_property ref PROP_EXPORTED_CONFIGS).
  assert (∃ trh cands w1,
    (if negb (truthy configs) || is_star configs
     then ret (ex0 :: exs0)
     else filter_list (λ ex, call_handles env ex configs) (ex0 :: exs0))
      (recorded ref d) w = Run (Ok cands) (recorded ref d) w1 trh ∧
    Forall is_handles trh) as (trh & cands & w1 & Hsel & Hh).
  { destruct (negb (truthy configs) || is_star configs).
    - by exists [], (ex0 :: exs0), w.
    - destruct (filter_handles env configs (ex0 :: exs0) (recorded ref d) w)
        as (Hd & Hres & Hq & Hall).
      destruct (filter_list _ (ex0 :: exs0) (recorded ref d) w)
        as [res' d' w' tr'] eqn:E.
      fields in *. subst. by exists tr', (accepted tr'), w'. }
  erewrite bind_ok by exact Hsel. fields.
  assert (Hnoth : ExportService ex ref' nm fw a ∉ trh).
  { intros Hin. rewrite Forall_forall in Hh.
    by destruct (Hh _ Hin) as (? & ? & ? & ?). }
  destruct cands as [|c0 cs].
  { cbn. rewrite elem_of_app. intros [?|[?|?%elem_of_nil]%elem_of_cons]; done. }
  destruct (compute_name_total ref) as [nm0 Hnm]. rewrite Hnm.
  unfold lift. rewrite bind_ret.
  pose proof (export_loop_calls ref nm0 (c0 :: cs) (recorded ref d) w1) as Hcalls.
  destruct (export_loop_spec env ref nm0 (c0 :: cs) (recorded ref d) w1)
    as (Hres & _).
  destruct (export_loop env ref nm0 (c0 :: cs) (recorded ref d) w1)
    as [res2 d2 w2 tr2] eqn:E2.
  fields in *. subst res2.
  erewrite bind_ok by exact E2. fields.
  rewrite Forall_forall in Hcalls.
  destruct (created tr2) as [|ep0 eps] eqn:Hcr.
  { cbn. rewrite !elem_of_app.
    intros [?|[Hin|[?|?%elem_of_nil]%elem_of_cons]]; try done.
    by apply (Hcalls _ Hin ex ref' nm fw a). }
  rewrite bind_get.
  set (n := endpoints_added (ep0 :: eps)).
  rewrite (guarded_loop (λ l, call_listener env l n)).
  destruct (listeners_loop env n (_listeners d2) d2 w2) as (_ & Hn3 & _).
  rewrite !elem_of_app. intros [?|[Hin|Hin]]; try done.
  - by apply (Hcalls _ Hin ex ref' nm fw a).
  - rewrite Forall_forall in Hn3. by destruct (Hn3 _ Hin) as (? & ? & ?).
Qed.

Lemma export_returns ref d w :
  failures (events (__export_service env ref d w)) = [] →
  result (__export_service env ref d w) = Ok tt.
Proof.
  destruct (export_structure env ref d w)
    as (trh & tre & trl & Hev & Hh & He & Hn & _ & _ & _ & _ & Hret & _).
  destruct (export_trace_projections _ _ _ _ Hh He Hn) as (_ & _ & _ & _ & _ & Hp).
  cbn zeta in Hev, Hret. rewrite Hev, Hp. exact Hret.
Qed.

Lemma exports_loop refs d w :
  let r := for_each (__export_service env) refs d w in
  _exporters (disp r) = _exporters d ∧
  _listeners (disp r) = _listeners d ∧
  _fw_uid (disp r) = _fw_uid d ∧
  __validated (disp r) = __validated d ∧
  (∀ ex ref nm fw a, ExportService ex ref nm fw a ∈ events r →
                     fw = _fw_uid d ∧ ref ∈ refs) ∧
  (∀ id, is_Some (__service_uids d !! id) →
         is_Some (__service_uids (disp r) !! id)) ∧
  (result r = Ok tt →
   ∀ ref, ref ∈ refs → is_Some (__service_uids (disp r) !! sr_id ref)) ∧
  (failures (events r) = [] → result r = Ok tt).
Proof.
  revert d w. induction refs as [|ref refs IH]; intros d w; cbn zeta; cbn [for_each].
  { split_and!; try done.
    - by intros ? ? ? ? ? ?%elem_of_nil.
    - by intros _ ? ?%elem_of_nil. }
  destruct (export_index env ref d w)
    as (_ & _ & _ & Hmine & Hrest & E1 & E2 & E3 & E4).
  pose proof (export_calls ref d w) as Hcalls.
  pose proof (export_returns ref d w) as Hret.
  assert (Hgrow : ∀ id, is_Some (__service_uids d !! id) →
            is_Some (__service_uids (disp (__export_service env ref d w)) !! id)).
  { intros id Hid. destruct (decide (id = sr_id ref)) as [->|Hne].
    - rewrite Hmine. eauto.
    - by rewrite Hrest. }
  destruct (__export_service env ref d w) as [[[]|e] d1 w1 tr1] eqn:E; fields in *.
  - erewrite bind_ok by exact E. fields.
    destruct (IH d1 w1) as (F1 & F2 & F3 & F4 & Hc & Hg & Hall & Hf).
    split_and!; try congruence.
    + intros ex ref' nm fw a [Hin|Hin]%elem_of_app.
      * destruct (Hcalls _ _ _ _ _ Hin) as [-> ->]. split; [done|left].
      * destruct (Hc _ _ _ _ _ Hin) as [-> ?]. split; [done|by right].
    + intros id Hid. by apply Hg, Hgrow.
    + intros Hok ref' [->|Hin]%elem_of_cons.
      * apply Hg. rewrite Hmine. eauto.
      * by apply Hall.
    + rewrite failures_app. intros [_ ?]%app_eq_nil. by apply Hf.
  - erewrite bind_raise by exact E. fields.
    split_and!; try done.
    intros ex ref' nm fw a Hin.
    destruct (Hcalls _ _ _ _ _ Hin) as [-> ->]. split; [done|left].
Qed.

(** X7.  Validation.  The dispatcher is flagged validated and has the
    framework UID of the context, also when validation raises; the
    exporters and the listeners are as before.  Every export asked for
    during validation is for a reference the framework listed and carries
    the framework UID of the context.  The services on record stay on
    record; when validation returns, every reference the framework listed
    is on record and the service listener has been registered as the last
    action.  Validation returns when no listener raises, and does nothing
    but register the listener when the framework lists no reference. *)
Theorem validate_exports_existing context d w :
  let r := validate env context d w in
  let existing := (get_all_service_references context ldapfilter w).1 in
  __validated (disp r) = true ∧
  _fw_uid (disp r) = framework_uid context ∧
  _exporters (disp r) = _exporters d ∧
  _listeners (disp r) = _listeners d ∧
  (∀ ex ref nm fw a,
     ExportService ex ref nm fw a ∈ events r →
     fw = framework_uid context ∧ ∃ refs, existing = Some refs ∧ ref ∈ refs) ∧
  (∀ id, is_Some (__service_uids d !! id) →
         is_Some (__service_uids (disp r) !! id)) ∧
  (result r = Ok tt →
   (∀ refs ref, existing = Some refs → ref ∈ refs →
                is_Some (__service_uids (disp r) !! sr_id ref)) ∧
   ∃ w', world r = add_service_listener context ldapfilter w') ∧
  (failures (events r) = [] → result r = Ok tt) ∧
  (existing = None → events r = [] ∧ result r = Ok tt).
Proof.
  cbn zeta. unfold validate. rewrite !bind_modify.
  set (d0 := set_validated true (set_fw_uid (framework_uid context) d)).
  erewrite bind_ok by reflexivity. fields.
  destruct (get_all_service_references context ldapfilter w) as [[refs|] w0];
    cbn [fst snd].
  - destruct (exports_loop refs d0 w0) as (F1 & F2 & F3 & F4 & Hc & Hg & Hall & Hf).
    destruct (for_each (__export_service env) refs d0 w0)
      as [[[]|e] d1 w1 tr1] eqn:E; fields in *.
    + erewrite bind_ok by exact E. cbn. rewrite ?app_nil_r, ?F1, ?F2, ?F3, ?F4.
      split_and!; try done.
      * intros ex ref nm fw a Hin. destruct (Hc _ _ _ _ _ Hin) as [-> ?]. eauto.
      * intros _. split; [|eauto]. intros ? ref [= <-] Hin. by apply Hall.
    + erewrite bind_raise by exact E. cbn. rewrite ?app_nil_r, ?F1, ?F2, ?F3, ?F4.
      split_and!; try done.
      intros ex ref nm fw a Hin. destruct (Hc _ _ _ _ _ Hin) as [-> ?]. eauto.
  - rewrite bind_ret. cbn.
    split_and!; try done.
    + by intros ? ? ? ? ? ?%elem_of_nil.
    + intros _. split; [done|eauto].
Qed.
End LifecycleProperties.

(** ** The servlet and its servers *)

Lemma list_remove_absent x l : x ∉ l → list_remove x l = l.
Proof.
  induction l as [|y l IH]; [done|]. intros [Hne Hin]%not_elem_of_cons. simpl.
  rewrite bool_decide_eq_false_2 by done. by rewrite IH.
Qed.

Lemma list_remove_elem x l p :
  NoDup l → p ∈ list_remove x l ↔ p ≠ x ∧ p ∈ l.
Proof.
  induction l as [|y l IH]; intros Hnd; simpl.
  { split; [by intros ?%elem_of_nil|by intros [_ ?%elem_of_nil]]. }
  apply NoDup_cons in Hnd as [Hy Hnd].
  case_bool_decide as Hxy.
  - subst y. rewrite elem_of_cons. split.
    + intros Hin. split; [by intros ->|by right].
    + by intros [Hne [?|?]].
  - rewrite !elem_of_cons, (IH Hnd). split.
    + intros [->|[? ?]]; split; auto.
    + intros [Hne [->|Hin]]; auto.
Qed.

Lemma list_remove_sublist x l : sublist (list_remove x l) l.
Proof.
  induction l as [|y l IH]; [done|]. simpl. case_bool_decide.
  - by apply sublist_cons.
  - by apply sublist_skip.
Qed.

Lemma list_remove_snoc x l : x ∉ l → list_remove x (l ++ [x]) = l.
Proof.
  induction l as [|y l IH]; simpl.
  { intros _. by rewrite bool_decide_eq_true_2. }
  intros [Hne Hin]%not_elem_of_cons.
  rewrite bool_decide_eq_false_2 by done. by rewrite IH.
Qed.

(** X8.  The servlet follows the servers it is bound to.  A new servlet
    is well formed: no port is listed twice and the service is provided
    exactly when a port is listed; for a well-formed servlet [get_access]
    answers [None] exactly when the service is not provided.  Binding to a
    server of port [port] keeps the servlet well formed, lists that port
    besides those listed, provides the service, keeps the first port
    listed as the access point, and changes nothing when the port was
    listed.  Unbinding keeps the servlet well formed, lists the other ports
    only, in their order, and changes nothing when the port was not
    listed. *)
Theorem servlet_follows_servers path parameters port s :
  parameters !! "http.port" = Some port →
  servlet_ok s →
  servlet_ok RegistryServlet_init ∧
  (get_access s = None ↔ _controller s = false) ∧
  (∃ s', bound_to path parameters s = Ok s' ∧
         servlet_ok s' ∧
         (∀ p, p ∈ _ports s' ↔ p = port ∨ p ∈ _ports s) ∧
         _controller s' = true ∧
         get_access s' = Some (default port (fst <$> get_access s), _path s) ∧
         (port ∈ _ports s → s' = s)) ∧
  (∃ s', unbound_from path parameters s = Ok s' ∧
         servlet_ok s' ∧
         (∀ p, p ∈ _ports s' ↔ p ≠ port ∧ p ∈ _ports s) ∧
         sublist (_ports s') (_ports s) ∧
         (port ∉ _ports s → s' = s)).
Proof.
  intros Hport [Hnd Hctl].
  split_and!.
  - split; [constructor|]. by split.
  - unfold get_access. destruct (_ports s) as [|p ps] eqn:E.
    + split; [intros _|done]. destruct (_controller s); [|done].
      by destruct (proj1 Hctl).
    + split; [done|]. intros Hc. by rewrite (proj2 Hctl) in Hc.
  - unfold bound_to. rewrite Hport. case_bool_decide as Hin.
    + exists s. split_and!; try done.
      * intros p. split; [by right|]. by intros [->|?].
      * apply Hctl. intros E. rewrite E in Hin. by apply elem_of_nil in Hin.
      * unfold get_access. destruct (_ports s); [by apply elem_of_nil in Hin|done].
    + eexists. split; [reflexivity|]. unfold servlet_ok, get_access. simpl.
      split_and!.
      * apply NoDup_app. split_and!; [done| |apply NoDup_singleton].
        intros x Hx ->%list_elem_of_singleton. done.
      * split; [intros _|done]. by destruct (_ports s).
      * intros p. rewrite elem_of_app, list_elem_of_singleton. tauto.
      * done.
      * by destruct (_ports s).
      * done.
  - unfold unbound_from. rewrite Hport. case_bool_decide as Hin.
    + eexists. split; [reflexivity|]. unfold servlet_ok. simpl.
      split_and!.
      * eapply sublist_NoDup; [done|apply list_remove_sublist].
      * destruct (list_remove port (_ports s)) eqn:E; [done|].
        split; [done|]. intros _. apply Hctl. intros E'. rewrite E' in Hin.
        by apply elem_of_nil in Hin.
      * intros p. by apply list_remove_elem.
      * apply list_remove_sublist.
      * done.
    + exists s. split_and!; try done.
      intros p. split; [|tauto]. intros Hp. split; [|done]. by intros ->.
Qed.

(** X9.  Unbinding undoes binding: a well-formed servlet bound to a server
    whose port it did not list and then unbound from it is the servlet it
    was, controller included. *)
Theorem unbound_from_undoes_bound_to path parameters port s :
  parameters !! "http.port" = Some port →
  servlet_ok s → port ∉ _ports s →
  ∃ s', bound_to path parameters s = Ok s' ∧
        port ∈ _ports s' ∧
        unbound_from path parameters s' = Ok s.
Proof.
  intros Hport [Hnd Hctl] Hnew. unfold bound_to. rewrite Hport.
  rewrite bool_decide_eq_false_2 by done.
  eexists. split; [reflexivity|]. simpl.
  split; [apply elem_of_app; right; by apply list_elem_of_singleton|].
  unfold unbound_from. rewrite Hport. simpl.
  rewrite bool_decide_eq_true_2
    by (apply elem_of_app; right; by apply list_elem_of_singleton).
  rewrite list_remove_snoc by done. f_equal.
  destruct s as [fw c pa ports]. simpl in *. f_equal.
  destruct ports; [|symmetry; by apply Hctl].
  destruct c; [|done]. by destruct (proj1 Hctl).
Qed.


(** ** Paths *)

Lemma split_nonempty sep s : split sep s ≠ [].
Proof.
  destruct s as [|c s]; [done|]. simpl.
  destruct (Ascii.eqb c sep); [done|]. by destruct (split sep s).
Qed.

Lemma split_app sep s1 s2 :
  split sep (s1 +:+ String sep s2) = split sep s1 ++ split sep s2.
Proof.
  induction s1 as [|c s1 IH]; simpl.
  { by rewrite Ascii.eqb_refl. }
  destruct (Ascii.eqb c sep); [by rewrite IH|].
  rewrite IH. pose proof (split_nonempty sep s1).
  by destruct (split sep s1).
Qed.

Lemma penultimate_snoc l b :
  l ≠ [] → penultimate (l ++ [b]) = Ok (List.last l EmptyString).
Proof.
  intros Hl. unfold penultimate. rewrite reverse_app. simpl.
  induction l as [|x l _] using rev_ind; [done|].
  by rewrite reverse_app, List.last_last.
Qed.

Lemma path_parts s b :
  segment b →
  List.last (split "/" (s +:+ "/" +:+ b)) EmptyString = b ∧
  penultimate (split "/" (s +:+ "/" +:+ b)) =
    Ok (List.last (split "/" s) EmptyString).
Proof.
  intros Hb. change ("/" +:+ b) with (String "/" b).
  rewrite split_app, Hb. split.
  - apply List.last_last.
  - apply penultimate_snoc, split_nonempty.
Qed.

(** ** GET *)

Section ServletGetProperties.
Context {W : Type} (dumps : json → string).

(** X10.  A GET on a path [s/b], where [b] is one segment and [a] is the
    last segment of [s], sends exactly one answer, returns, and leaves the
    dispatcher and the collaborators alone.  When [a] is [endpoint], [b] is
    taken for a UID, also when it reads [endpoints]: the answer is 200 with
    the serialized wire record of the endpoint of that UID, or 404 with
    the text [Unknown UID: b] when there is none.  Otherwise, when [b] is
    [endpoints], the answer is 200 with the serialized list of the wire
    records of all the endpoints, and else 404 with [Unhandled path]. *)
Theorem get_routes_on_two_segments fw_uid request s b d (w : W) :
  get_path request = s +:+ "/" +:+ b →
  segment b →
  let a := List.last (split "/" s) EmptyString in
  let r := do_GET dumps fw_uid request d w in
  result r = Ok tt ∧ disp r = d ∧ world r = w ∧
  events r =
    [if String.eqb a "endpoint" then
       match get_endpoint b d with
       | Some endpoint =>
           SendContent 200 (dumps (_make_endpoint_dict fw_uid endpoint))
             "application/json"
       | None => SendContent 404 ("Unknown UID: " +:+ b) "text/plain"
       end
     else if String.eqb b "endpoints" then
       SendContent 200
         (dumps (JArr (_make_endpoint_dict fw_uid <$> get_endpoints None None d)))
         "application/json"
     else SendContent 404 "Unhandled path" "text/plain"].
Proof.
  intros Hpath Hb. cbn zeta. unfold do_GET. cbn zeta. rewrite Hpath.
  destruct (path_parts s b Hb) as [-> ->].
  unfold lift. rewrite bind_ret, bind_get.
  destruct (String.eqb (List.last (split "/" s) EmptyString) "endpoint").
  - by destruct (get_endpoint b d).
  - destruct (String.eqb b "endpoints"); [|done].
    by destruct (get_endpoints None None d).
Qed.
End ServletGetProperties.

(** ** POST *)

Section ServletPostProperties.
Context {W : Type} (env : World W).

Lemma register_wire host fw_uid ep d w :
  register_endpoint env host (_make_endpoint_dict fw_uid ep) d w =
  Run (Ok tt) d (registry_add env (imported_from host fw_uid ep) w)
    [RegistryAdd (imported_from host fw_uid ep)].
Proof. apply register_wire_record. Qed.

Lemma register_wire_loop host fw_uid eps d w :
  for_each (register_endpoint env host) (_make_endpoint_dict fw_uid <$> eps) d w =
  Run (Ok tt) d
    (foldl (λ w' ep, registry_add env (imported_from host fw_uid ep) w') w eps)
    (RegistryAdd ∘ imported_from host fw_uid <$> eps).
Proof.
  revert w. induction eps as [|ep eps IH]; intros w; [done|].
  cbn [fmap list_fmap for_each].
  erewrite bind_ok by apply register_wire. fields. by rewrite IH.
Qed.

Lemma for_each_app {A} (f : A → M W unit) l1 l2 d w d1 w1 tr1 :
  for_each f l1 d w = Run (Ok tt) d1 w1 tr1 →
  for_each f (l1 ++ l2) d w =
  Run (result (for_each f l2 d1 w1)) (disp (for_each f l2 d1 w1))
    (world (for_each f l2 d1 w1)) (tr1 ++ events (for_each f l2 d1 w1)).
Proof.
  revert d w tr1. induction l1 as [|x l1 IH]; intros d w tr1 H.
  { injection H as <- <- <-. simpl. by rewrite run_eta. }
  cbn [app for_each] in *.
  destruct (f x d w) as [[[]|e] d' w' tr'] eqn:E.
  - erewrite bind_ok in H by exact E. erewrite bind_ok by exact E. fields in *.
    destruct (for_each f l1 d' w') as [res2 d2 w2 tr2] eqn:E2. fields in *.
    injection H as -> -> -> <-.
    rewrite (IH d' w' tr2 E2). fields. by rewrite app_assoc.
  - erewrite bind_raise in H by exact E. done.
Qed.

Lemma register_malformed host bad d w :
  (∀ rec, bad = JObj rec →
          (∃ key, key ∈ wire_keys ∧ rec !! key = None) ∨
          (∃ v, rec !! "properties" = Some v ∧ ∀ p, v ≠ JObj p)) →
  register_endpoint env host bad d w =
  Run (Raise match bad with
             | JObj rec =>
                 match rec !! "sender", rec !! "properties" with
                 | Some _, Some (JObj _) => KeyError
                 | Some _, Some _ => TypeError
                 | _, _ => KeyError
                 end
             | _ => TypeError
             end) d w [].
Proof.
  intros Hbad. unfold register_endpoint.
  destruct bad as [| | | | |m]; try done.
  specialize (Hbad m eq_refl).
  unfold getitem, lift.
  destruct (m !! "sender") as [v1|] eqn:E1; [rewrite bind_ret|done].
  destruct (m !! "properties") as [v2|] eqn:E2; [rewrite bind_ret|done].
  destruct v2 as [| | | | |p]; try done.
  simpl. rewrite bind_ret.
  destruct Hbad as [(key & Hkey & Hnone)|(v & [= <-] & Hv)];
    [|by destruct (Hv p)].
  destruct (m !! "uid") as [v3|] eqn:E3; [rewrite bind_ret|done].
  destruct (m !! "configurations") as [v4|] eqn:E4; [rewrite bind_ret|done].
  destruct (m !! "name") as [v5|] eqn:E5; [rewrite bind_ret|done].
  destruct (m !! "specifications") as [v6|] eqn:E6; [rewrite bind_ret|done].
  unfold wire_keys in Hkey. rewrite !elem_of_cons in Hkey.
  destruct Hkey as [->|[->|[->|[->|[->|[->|[]%elem_of_nil]]]]]]; congruence.
Qed.

Lemma register_answers_nothing host v d w :
  disp (register_endpoint env host v d w) = d ∧
  responses (events (register_endpoint env host v d w)) = [].
Proof.
  unfold register_endpoint, lift.
  destruct (getitem v "sender") as [v1|e1]; [rewrite bind_ret|done].
  destruct (getitem v "properties") as [v2|e2]; [rewrite bind_ret|done].
  destruct (filter_properties_of v1 v2) as [p|e]; [rewrite bind_ret|done].
  destruct (getitem v "uid") as [v3|e3]; [rewrite bind_ret|done].
  destruct (getitem v "configurations") as [v4|e4]; [rewrite bind_ret|done].
  destruct (getitem v "name") as [v5|e5]; [rewrite bind_ret|done].
  destruct (getitem v "specifications") as [v6|e6]; [rewrite bind_ret|done].
  done.
Qed.

Lemma register_loop_answers_nothing host items d w :
  disp (for_each (register_endpoint env host) items d w) = d ∧
  responses (events (for_each (register_endpoint env host) items d w)) = [].
Proof.
  revert w. induction items as [|v items IH]; intros w; [done|].
  cbn [for_each].
  destruct (register_answers_nothing host v d w) as [Hd Hr].
  destruct (register_endpoint env host v d w) as [[[]|e] d1 w1 tr1] eqn:E;
    fields in *; subst d1.
  - erewrite bind_ok by exact E. fields.
    destruct (IH w1) as [Hd' Hr']. split; [done|].
    unfold responses in *. by rewrite omap_app, Hr, Hr'.
  - erewrite bind_raise by exact E. by fields.
Qed.

(** X11.  A POST to the [endpoints] path whose body decodes to the list of
    the wire records of some endpoints, as a peer's servlet makes them,
    registers one import endpoint for each, in the order of the list, each
    tagged with the address of the requester; then it answers 200 with the
    text [OK], and returns.  The dispatcher is unchanged. *)
Theorem post_registers_in_order request fw_uid eps d w :
  List.last (split "/" (get_path request)) EmptyString = "endpoints" →
  json_loads (read_data request) =
    Some (Ok (JArr (_make_endpoint_dict fw_uid <$> eps))) →
  let host := (get_client_address request).1 in
  ∃ m, do_POST env request = Some m ∧
       m d w =
       Run (Ok tt) d
         (foldl (λ w' ep, registry_add env (imported_from host fw_uid ep) w') w eps)
         ((RegistryAdd ∘ imported_from host fw_uid <$> eps)
            ++ [SendContent 200 "OK" "text/plain"]).
Proof.
  intros Hpath Hload host. unfold do_POST. rewrite Hpath, Hload. simpl.
  eexists. split; [reflexivity|].
  unfold lift. rewrite bind_ret.
  destruct eps as [|ep eps]; [done|].
  cbn [truthy iterate lift fmap list_fmap].
  erewrite bind_ok.
  2:{ rewrite bind_ret. apply (register_wire_loop host fw_uid (ep :: eps)). }
  done.
Qed.

(** X12.  A POST stops at the first malformed record.  The body decodes
    to a list where well-formed wire records are followed by a value that
    is not a dictionary, or by a dictionary that lacks one of the six keys
    of a wire record or whose [properties] is not a dictionary.  Then the
    records before it are registered, the records after it are not looked
    at, no answer is sent, the dispatcher is unchanged, and the request
    raises: [TypeError] when the value is not a dictionary; otherwise
    [KeyError] when [sender] or [properties] is missing; otherwise
    [TypeError] when [properties] is not a dictionary; otherwise
    [KeyError], for the other key that is missing. *)
Theorem post_stops_at_malformed request fw_uid eps bad rest d w :
  List.last (split "/" (get_path request)) EmptyString = "endpoints" →
  json_loads (read_data request) =
    Some (Ok (JArr ((_make_endpoint_dict fw_uid <$> eps) ++ bad :: rest))) →
  (∀ rec, bad = JObj rec →
          (∃ key, key ∈ wire_keys ∧ rec !! key = None) ∨
          (∃ v, rec !! "properties" = Some v ∧ ∀ p, v ≠ JObj p)) →
  let host := (get_client_address request).1 in
  ∃ m, do_POST env request = Some m ∧
       result (m d w) =
         Raise match bad with
               | JObj rec =>
                   match rec !! "sender", rec !! "properties" with
                   | Some _, Some (JObj _) => KeyError
                   | Some _, Some _ => TypeError
                   | _, _ => KeyError
                   end
               | _ => TypeError
               end ∧
       disp (m d w) = d ∧
       events (m d w) = RegistryAdd ∘ imported_from host fw_uid <$> eps.
Proof.
  intros Hpath Hload Hbad host. unfold do_POST. rewrite Hpath, Hload. simpl.
  eexists. split; [reflexivity|].
  unfold lift. rewrite bind_ret.
  assert (truthy (JArr ((_make_endpoint_dict fw_uid <$> eps) ++ bad :: rest)) = true)
    as -> by (by destruct eps).
  cbn [iterate].
  erewrite bind_raise.
  2:{ rewrite bind_ret.
      rewrite (for_each_app _ _ _ _ _ _ _ _ (register_wire_loop host fw_uid eps d w)).
      cbn [for_each].
      erewrite bind_raise by (by apply register_malformed).
      fields. reflexivity. }
  fields. by rewrite app_nil_r.
Qed.

(** X13.  A POST to the [endpoints] path whose body decodes to a value
    that is true as a truth value and is not a list (a non-empty
    dictionary or text, a number other than 0, [true]) raises [TypeError]:
    nothing is registered and no answer is sent. *)
Theorem post_non_list_raises request v d w :
  List.last (split "/" (get_path request)) EmptyString = "endpoints" →
  json_loads (read_data request) = Some (Ok v) →
  truthy v = true →
  (∀ l, v ≠ JArr l) →
  ∃ m, do_POST env request = Some m ∧ m d w = Run (Raise TypeError) d w [].
Proof.
  intros Hpath Hload Hv Hnl. unfold do_POST. rewrite Hpath, Hload. simpl.
  eexists. split; [reflexivity|].
  unfold lift. rewrite bind_ret, Hv.
  destruct v as [|b|z|s|l|m]; try done.
  - destruct s as [|c s]; [done|]. by cbn.
  - by destruct (Hnl l).
  - cbn [iterate].
    destruct (map_to_list m) as [|[k x] kvs] eqn:E.
    + apply map_to_list_empty_iff in E. subst m. done.
    + by cbn.
Qed.

(** X14.  A POST looks at the last segment of the path only.  On a path
    [s/b] where [b] is one segment other than [endpoints], the request is
    answered 404 with [Unhandled path] and returns, without decoding the
    body, so also for a body that is not JSON.  When [b] is [endpoints],
    whatever [s], the request is taken: the body is decoded and a decoding
    error leaves the handler with no answer sent; the dispatcher is
    unchanged; the only answer the handler ever sends is 200 with [OK], and
    it sends it exactly when it returns, which it does when the body
    decodes to an empty value. *)
Theorem post_routes_on_last_segment request s b d w :
  get_path request = s +:+ "/" +:+ b →
  segment b →
  (b ≠ "endpoints" →
   ∃ m, do_POST env request = Some m ∧
        m d w = Run (Ok tt) d w [SendContent 404 "Unhandled path" "text/plain"]) ∧
  (b = "endpoints" →
   ∀ loaded, json_loads (read_data request) = Some loaded →
     ∃ m, do_POST env request = Some m ∧
          disp (m d w) = d ∧
          responses (events (m d w)) =
            (if result (m d w) is Ok _ then [(200%Z, "OK", "text/plain")] else []) ∧
          (∀ e, loaded = Raise e → m d w = Run (Raise e) d w []) ∧
          (∀ v, loaded = Ok v → truthy v = false → result (m d w) = Ok tt)).
Proof.
  intros Hpath Hb. destruct (path_parts s b Hb) as [Hlast _].
  rewrite <- Hpath in Hlast. split.
  - intros Hne. unfold do_POST. rewrite Hlast.
    apply String.eqb_neq in Hne. rewrite Hne. simpl. eauto.
  - intros -> loaded Hload. unfold do_POST. rewrite Hlast, Hload. simpl.
    eexists. split; [reflexivity|].
    destruct loaded as [v|e]; unfold lift.
    2:{ split_and!; try done. by intros ? [= <-]. }
    rewrite bind_ret.
    destruct (truthy v) eqn:Hv.
    2:{ split_and!; try done. }
    destruct (iterate v) as [items|e] eqn:Hit.
    2:{ cbn. split_and!; try done. intros v' [= <-]. congruence. }
    destruct (register_loop_answers_nothing (get_client_address request).1 items d w)
      as [Hd Hr].
    destruct (for_each (register_endpoint env (get_client_address request).1)
                items d w) as [[[]|e] d1 w1 tr1] eqn:E; fields in *; subst d1.
    + erewrite bind_ok.
      2:{ rewrite bind_ret. exact E. }
      cbn. split_and!; try done.
      unfold responses in *. by rewrite omap_app, Hr.
    + erewrite bind_raise.
      2:{ rewrite bind_ret. exact E. }
      cbn. split_and!; try done. intros v' [= <-]. congruence.
Qed.
End ServletPostProperties.

(** ** The export-to-import transform *)

(** X15.  The export-to-import transform settles.  Applied a second time
    for the same framework it changes nothing; applied a second time for
    another framework it only replaces [framework.uid].  Keys other than
    the five it handles keep their value, and [imported.configs] keeps the
    value the sender gave it when the sender gave no [exported.configs]. *)
Theorem filter_properties_settles fw fw' (props : gmap string json) :
  filter_properties fw (filter_properties fw props) = filter_properties fw props ∧
  filter_properties fw' (filter_properties fw props) =
    <[PROP_FRAMEWORK_UID := fw']> (filter_properties fw props) ∧
  (∀ k, k ∉ [PROP_IMPORTED; PROP_IMPORTED_CONFIGS; PROP_EXPORTED_CONFIGS;
             PROP_EXPORTED_INTERFACES; PROP_FRAMEWORK_UID] →
        filter_properties fw props !! k = props !! k) ∧
  (props !! PROP_EXPORTED_CONFIGS = None →
   filter_properties fw props !! PROP_IMPORTED_CONFIGS =
     props !! PROP_IMPORTED_CONFIGS).
Proof.
  assert (Hagain : ∀ f, filter_properties f (filter_properties fw props) =
            <[PROP_FRAMEWORK_UID := f]> (filter_properties fw props)).
  { intros f. apply map_eq. intros k.
    destruct (filter_properties_lookup fw props) as (H1 & H2 & H3 & H4 & H5 & H6).
    destruct (filter_properties_lookup f (filter_properties fw props))
      as (G1 & G2 & G3 & G4 & G5 & G6).
    cbn zeta in *. rewrite H3 in G2.
    destruct (decide (k = PROP_FRAMEWORK_UID)) as [->|N5].
    { by rewrite G5, lookup_insert_eq. }
    rewrite lookup_insert_ne by done.
    destruct (decide (k = PROP_IMPORTED)) as [->|N1]; [congruence|].
    destruct (decide (k = PROP_IMPORTED_CONFIGS)) as [->|N2]; [congruence|].
    destruct (decide (k = PROP_EXPORTED_CONFIGS)) as [->|N3]; [congruence|].
    destruct (decide (k = PROP_EXPORTED_INTERFACES)) as [->|N4]; [congruence|].
    apply G6. rewrite !not_elem_of_cons. split_and!; try done. apply not_elem_of_nil. }
  destruct (filter_properties_lookup fw props) as (H1 & H2 & H3 & H4 & H5 & H6).
  cbn zeta in *. split_and!.
  - rewrite Hagain. by apply insert_id.
  - apply Hagain.
  - exact H6.
  - intros Hnone. by rewrite H2, Hnone.
Qed.

(** ** The properties above at concrete inputs *)

Lemma fresh_consistent exporters listeners :
  index_consistent (fresh exporters listeners).
Proof.
  split; simpl.
  - apply fresh_keyed.
  - done.
  - intros id uids u H. simpl in H. by apply lookup_empty_Some in H.
  - intros u [ep H]. simpl in H. by apply lookup_empty_Some in H.
  - intros id1 id2 uids1 uids2 u H. simpl in H. by apply lookup_empty_Some in H.
Qed.

Lemma export_files_endpoints_witness :
  get_endpoint "ep-1" (after (__export_service friendly service_a) (fresh [0; 1] [0]) tt)
    = Some (sample_endpoint 1) ∧
  __uid_exporter (after (__export_service friendly service_a) (fresh [0; 1] [0]) tt)
    !! "ep-1" = Some 1.
Proof.
  destruct (export_files_endpoints friendly service_a (fresh [0; 1] [0]) tt)
    as (H & _).
  apply (H ltac:(apply (bool_decide_unpack _); by vm_compute) 1 (sample_endpoint 1)).
  vm_compute. right. left.
Defined.

Lemma unexport_twice_witness :
  __endpoints (after (__unexport_service friendly service_a) exported_a tt)
    !! "ep-0" = None ∧
  __uid_exporter (after (__unexport_service friendly service_a) exported_a tt)
    !! "ep-0" = None ∧
  unexports (events (__unexport_service friendly service_a exported_a tt)) =
    [(0, sample_endpoint 0)] ∧
  __unexport_service friendly service_a (fresh [0] [0]) tt =
    Run (Ok tt) (fresh [0] [0]) tt [] ∧
  __update_service friendly service_a ∅ (fresh [0] [0]) tt =
    Run (Ok tt) (fresh [0] [0]) tt [].
Proof.
  destruct (unexport_twice friendly service_a exported_a tt)
    as (_ & _ & _ & Hgone & Hrec & _).
  destruct (unexport_twice friendly service_a (fresh [0] [0]) tt)
    as (_ & _ & _ & _ & _ & _ & _ & Hnone).
  destruct (Hrec {["ep-0"]}) as (_ & Hex & Hun & _); [by vm_compute|].
  destruct (Hnone (fresh [0] [0]) tt ∅) as [Hunexport Hupdate]; [done|].
  split_and!.
  - apply (Hgone {["ep-0"]}); [by vm_compute|]. by apply elem_of_singleton.
  - unfold after. rewrite Hex. apply decide_True.
    split; [by apply elem_of_singleton|].
    exists (sample_endpoint 0). by vm_compute.
  - rewrite Hun, elements_singleton. by vm_compute.
  - exact Hunexport.
  - exact Hupdate.
Defined.


Lemma update_changes_nothing_witness :
  UnexportService 0 (sample_endpoint 0)
    ∈ events (__update_service renaming service_a ∅ exported_a tt) ∧
  get_endpoint "ep-0" (after (__update_service renaming service_a ∅) exported_a tt)
    = Some (sample_endpoint 0).
Proof.
  destruct (update_changes_nothing renaming service_a ∅ exported_a tt) as (_ & H).
  destruct (H exported_a_keyed 0 (sample_endpoint 0) (GeneratedName (JInt 1)))
    as (H1 & H2 & _); [vm_compute; left|].
  by split.
Defined.

Lemma service_events_keep_consistent_witness :
  index_consistent (after (service_changed friendly registered_a) (fresh [0; 1] [0]) tt).
Proof.
  destruct (service_events_keep_consistent friendly registered_a (fresh [0; 1] [0]) tt)
    as [_ Hstep].
  apply Hstep.
  - apply fresh_consistent.
  - intros ex ep id uids _ H. simpl in H. by apply lookup_empty_Some in H.
Defined.

Lemma register_then_unregister_restores_witness :
  after (service_changed friendly unregistering_a)
    (after (service_changed friendly registered_a) (fresh [0; 1] [0]) tt) tt =
  fresh [0; 1] [0].
Proof.
  destruct (register_then_unregister_restores friendly registered_a unregistering_a
              (fresh [0; 1] [0]) tt tt) as (_ & H & _); try done.
  - left.
  - left.
Defined.

Lemma get_endpoints_filters_witness :
  sample_endpoint 0 ∈ get_endpoints (Some "xmlrpc") None exported_a.
Proof.
  destruct (get_endpoints_filters (Some "xmlrpc") None exported_a (sample_endpoint 0))
    as (H & _).
  apply H. split_and!.
  - exists "ep-0". by vm_compute.
  - done.
  - intros k [= <-]. vm_compute. left.
Defined.

Lemma validate_exports_existing_witness :
  is_Some (__service_uids (after (validate friendly sample_context) bound tt)
             !! sr_id service_b).
Proof.
  destruct (validate_exports_existing friendly sample_context bound tt)
    as (_ & _ & _ & _ & _ & _ & H & _).
  destruct H as [H _]; [by vm_compute|].
  apply (H [service_a; service_b]); [done|]. right. left.
Defined.

Lemma init_ok : servlet_ok RegistryServlet_init.
Proof. split; [constructor|done]. Qed.

Lemma servlet_follows_servers_witness :
  ∃ s', bound_to "/pelix-dispatcher" one_port RegistryServlet_init = Ok s' ∧
        _controller s' = true ∧
        get_access s' = Some (8080%Z, None).
Proof.
  destruct (servlet_follows_servers "/pelix-dispatcher" one_port 8080
              RegistryServlet_init eq_refl init_ok)
    as (_ & _ & (s' & H1 & _ & _ & H2 & H3 & _) & _).
  exists s'. by split_and!.
Defined.

Lemma unbound_from_undoes_bound_to_witness :
  ∃ s', bound_to "/pelix-dispatcher" one_port RegistryServlet_init = Ok s' ∧
        unbound_from "/pelix-dispatcher" one_port s' = Ok RegistryServlet_init.
Proof.
  destruct (unbound_from_undoes_bound_to "/pelix-dispatcher" one_port 8080
              RegistryServlet_init eq_refl init_ok)
    as (s' & H1 & _ & H2); [apply not_elem_of_nil|].
  by exists s'.
Defined.

Lemma get_routes_on_two_segments_witness :
  events (do_GET sample_dumps (Some "fw-1")
            (get_request "/pelix-dispatcher/endpoint/ep-0") exported_a tt) =
    [SendContent 200 sample_body "application/json"] ∧
  events (do_GET sample_dumps (Some "fw-1")
            (get_request "/pelix-dispatcher/endpoint/ep-9") exported_a tt) =
    [SendContent 404 "Unknown UID: ep-9" "text/plain"].
Proof.
  destruct (get_routes_on_two_segments sample_dumps (Some "fw-1")
              (get_request "/pelix-dispatcher/endpoint/ep-0")
              "/pelix-dispatcher/endpoint" "ep-0" exported_a tt eq_refl eq_refl)
    as (_ & _ & _ & H1).
  destruct (get_routes_on_two_segments sample_dumps (Some "fw-1")
              (get_request "/pelix-dispatcher/endpoint/ep-9")
              "/pelix-dispatcher/endpoint" "ep-9" exported_a tt eq_refl eq_refl)
    as (_ & _ & _ & H2).
  split; [exact H1|exact H2].
Defined.

Lemma post_registers_in_order_witness :
  ∃ m, do_POST friendly (post_request sample_body) = Some m ∧
       events (m (fresh [] []) tt) =
       [RegistryAdd (imported_from "10.0.0.7" (Some "fw-1") (sample_endpoint 0));
        SendContent 200 "OK" "text/plain"].
Proof.
  destruct (post_registers_in_order friendly (post_request sample_body)
              (Some "fw-1") [sample_endpoint 0] (fresh [] []) tt)
    as (m & H1 & H2); [by vm_compute|by vm_compute|].
  exists m. split; [exact H1|]. by rewrite H2.
Defined.

Lemma post_stops_at_malformed_witness :
  ∃ m, do_POST friendly (post_request "[{}]") = Some m ∧
       result (m (fresh [] []) tt) = Raise KeyError ∧
       events (m (fresh [] []) tt) = [].
Proof.
  destruct (post_stops_at_malformed friendly (post_request "[{}]")
              None [] (JObj ∅) [] (fresh [] []) tt)
    as (m & H1 & H2 & _ & H3); [by vm_compute|by vm_compute| |].
  - intros m [= <-]. left. exists "sender". split; [left|done].
  - by exists m.
Defined.

Lemma post_non_list_raises_witness :
  ∃ m, do_POST friendly (post_request "7") = Some m ∧
       m (fresh [] []) tt = Run (Raise TypeError) (fresh [] []) tt [].
Proof.
  apply (post_non_list_raises friendly (post_request "7") (JInt 7)); by vm_compute.
Defined.

Lemma post_routes_on_last_segment_witness :
  (∃ m, do_POST friendly (get_request "/pelix-dispatcher/endpoint") = Some m ∧
        m (fresh [] []) tt =
        Run (Ok tt) (fresh [] []) tt [SendContent 404 "Unhandled path" "text/plain"]) ∧
  (∃ m, do_POST friendly (post_request "[]") = Some m ∧
        result (m (fresh [] []) tt) = Ok tt).
Proof.
  destruct (post_routes_on_last_segment friendly
              (get_request "/pelix-dispatcher/endpoint")
              "/pelix-dispatcher" "endpoint" (fresh [] []) tt eq_refl eq_refl)
    as (Hother & _).
  destruct (post_routes_on_last_segment friendly (post_request "[]")
              "/pelix-dispatcher" "endpoints" (fresh [] []) tt eq_refl eq_refl)
    as (_ & Htaken).
  split; [by apply Hother|].
  destruct (Htaken eq_refl (Ok (JArr []))) as (m & Hm & _ & _ & _ & Hempty);
    [by vm_compute|].
  exists m. split; [exact Hm|]. by apply (Hempty (JArr [])).
Defined.

Lemma filter_properties_settles_witness :
  filter_properties (JStr "fw-1") (<[PROP_IMPORTED_CONFIGS := JStr "jsonrpc"]> ∅)
    !! PROP_IMPORTED_CONFIGS = Some (JStr "jsonrpc").
Proof.
  destruct (filter_properties_settles (JStr "fw-1") (JStr "fw-1")
              (<[PROP_IMPORTED_CONFIGS := JStr "jsonrpc"]> ∅))
    as (_ & _ & _ & H).
  rewrite H; by vm_compute.
Defined.
